(** * Cart store and session store of the storefront client

    A shallow embedding of [src/context/CartContext] (the cart store) and
    [src/context/AuthContext] (the session store), together with the part
    of the ECMAScript runtime the two stores call: array methods, template
    literals, [Number::toString], [JSON.stringify] and [JSON.parse].  The
    header component, which reads both stores, follows with its theme, its
    cart badge and its search path ([encodeURIComponent]).

    Modelling choices.
    - A JavaScript string is the list of its UTF-16 code units, each an [N].
    - A JavaScript number is an integer of [Z]: quantities and prices are
      taken integral, where IEEE-754 arithmetic is exact up to 2^53.
      Number tokens of a JSON text that carry a fraction or an exponent are
      kept as their token text.
    - React state is threaded explicitly: an operation of a store is a
      function from the store's state to its next state; [toast] calls are
      appended to a log held in the state; the effect that persists the cart
      runs at the end of every operation that calls [setItems].
    - An awaited backend call is an oracle of the backend record: it settles
      either fulfilled with a response or rejected with an error object.
      [try], [catch] and [finally] are combinators of a state-and-exception
      monad.  One operation of the session store is run at a time; the
      listener of session changes is not interleaved with it.
    - [localStorage.setItem], [toast] and [console.error] do not fail. *)

From Stdlib Require Import ZArith NArith List String Ascii Bool Lia.
Import ListNotations.

Set Implicit Arguments.
Set Warnings "-register-all".

(** ** The ECMAScript runtime used by the stores *)

Module JS.

Local Open Scope N_scope.

(** A string is its sequence of UTF-16 code units. *)
Definition jsstring := list N.

(** Source-text literal. *)
Definition lit (s : string) : jsstring :=
  map N_of_ascii (list_ascii_of_string s).

(** [a === b] on strings. *)
Fixpoint str_eqb (a b : jsstring) : bool :=
  match a, b with
  | [], [] => true
  | x :: a', y :: b' => (x =? y) && str_eqb a' b'
  | _, _ => false
  end.

(** ToBoolean of a string: only the empty string is falsy. *)
Definition truthy_string (s : jsstring) : bool :=
  match s with
  | [] => false
  | _ :: _ => true
  end.

(** Completion of a call: it returns a value or it throws one. *)
Inductive completion (E A : Type) : Type :=
| Normal (a : A)
| Throw (e : E).

Arguments Normal {E A} a.
Arguments Throw {E A} e.

(** What [JSON.parse] throws. *)
Inductive syntax_error : Type := SyntaxError.

(** [a ?? b]. *)
Definition nullish {A} (a : option A) (b : A) : A :=
  match a with
  | Some x => x
  | None => b
  end.

(** *** Array.prototype methods *)

(** [l.find(p)]: the first element satisfying [p], or [undefined]. *)
Definition array_find {A} (p : A -> bool) (l : list A) : option A := find p l.

(** [l.map(f)]. *)
Definition array_map {A B} (f : A -> B) (l : list A) : list B := map f l.

(** [l.filter(p)]. *)
Definition array_filter {A} (p : A -> bool) (l : list A) : list A := filter p l.

(** [l.reduce(f, init)]: left to right. *)
Definition array_reduce {A B} (f : B -> A -> B) (init : B) (l : list A) : B :=
  fold_left f l init.

(** *** Number::toString on integers *)

Definition digit_char (d : N) : N := 48 + d.

Fixpoint digits_aux (fuel : nat) (n : N) (acc : jsstring) : jsstring :=
  let acc' := digit_char (n mod 10) :: acc in
  match fuel with
  | O => acc'
  | S fuel' => if n <? 10 then acc' else digits_aux fuel' (n / 10) acc'
  end.

(** Decimal digits of [n], most significant first; [log2 n] steps are
    enough since [n < 2 ^ (log2 n + 1) <= 10 ^ (log2 n + 1)]. *)
Definition digits (n : N) : jsstring :=
  digits_aux (N.to_nat (N.log2 n)) n [].

Definition number_to_string (z : Z) : jsstring :=
  if (z <? 0)%Z then 45 :: digits (Z.to_N (- z)) else digits (Z.to_N z).

(** *** JSON values *)

(** The result of [JSON.parse] and the argument of [JSON.stringify].  An
    object is the list of its members in order. *)
Inductive jsvalue : Type :=
| JNull
| JBool (b : bool)
| JNum (z : Z)
| JDecimal (token : jsstring)
| JStr (s : jsstring)
| JArr (elements : list jsvalue)
| JObj (members : list (jsstring * jsvalue)).

(** *** JSON.stringify (ECMA-262, SerializeJSONProperty) *)

Definition hex_char (d : N) : N := if d <? 10 then 48 + d else 87 + d.

(** UnicodeEscape: [\uXXXX] with lower-case hexadecimal digits. *)
Definition unicode_escape (c : N) : jsstring :=
  [92; 117; hex_char ((c / 4096) mod 16); hex_char ((c / 256) mod 16);
   hex_char ((c / 16) mod 16); hex_char (c mod 16)].

Definition is_lead (c : N) : bool := (55296 <=? c) && (c <=? 56319).
Definition is_trail (c : N) : bool := (56320 <=? c) && (c <=? 57343).

(** One code point that is not a surrogate pair. *)
Definition quote_char (c : N) : jsstring :=
  if c =? 8 then [92; 98]
  else if c =? 9 then [92; 116]
  else if c =? 10 then [92; 110]
  else if c =? 12 then [92; 102]
  else if c =? 13 then [92; 114]
  else if c =? 34 then [92; 34]
  else if c =? 92 then [92; 92]
  else if (c <? 32) || is_lead c || is_trail c then unicode_escape c
  else [c].

(** The characters between the quotes: a lead surrogate followed by a trail
    surrogate is one code point and is copied, a lone surrogate is
    escaped. *)
Fixpoint quote_chars (s : jsstring) : jsstring :=
  match s with
  | [] => []
  | c :: r =>
      if is_lead c then
        match r with
        | d :: r' =>
            if is_trail d then c :: d :: quote_chars r'
            else unicode_escape c ++ quote_chars r
        | [] => unicode_escape c
        end
      else quote_char c ++ quote_chars r
  end.

(** QuoteJSONString. *)
Definition quote (s : jsstring) : jsstring := 34 :: quote_chars s ++ [34].

Fixpoint join_comma (parts : list jsstring) : jsstring :=
  match parts with
  | [] => []
  | [p] => p
  | p :: ps => p ++ 44 :: join_comma ps
  end.

(** [JSON.stringify(v)] with no replacer and no indentation. *)
Fixpoint stringify (v : jsvalue) : jsstring :=
  match v with
  | JNull => lit "null"
  | JBool true => lit "true"
  | JBool false => lit "false"
  | JNum z => number_to_string z
  | JDecimal t => t
  | JStr s => quote s
  | JArr vs => 91 :: join_comma (map stringify vs) ++ [93]
  | JObj ms =>
      123 :: join_comma (map (fun m => quote (fst m) ++ 58 :: stringify (snd m)) ms)
          ++ [125]
  end.

(** *** JSON.parse (ECMA-262, the JSON grammar of ECMA-404) *)

(** Result of a parsing function: a value and the text left, a syntax
    error, or the recursion budget spent. *)
Inductive parsed (A : Type) : Type :=
| Parsed (a : A) (rest : jsstring)
| Malformed
| OutOfFuel.

Arguments Parsed {A} a rest.
Arguments Malformed {A}.
Arguments OutOfFuel {A}.

Definition is_ws (c : N) : bool :=
  (c =? 32) || (c =? 9) || (c =? 10) || (c =? 13).

Fixpoint skip_ws (s : jsstring) : jsstring :=
  match s with
  | c :: r => if is_ws c then skip_ws r else s
  | [] => []
  end.

Definition is_digit (c : N) : bool := (48 <=? c) && (c <=? 57).

(** The longest run of digits at the head of [s], and what follows. *)
Fixpoint span_digits (s : jsstring) : jsstring * jsstring :=
  match s with
  | c :: r =>
      if is_digit c then
        let (ds, r') := span_digits r in (c :: ds, r')
      else ([], s)
  | [] => ([], [])
  end.

Definition decimal_value (ds : jsstring) : N :=
  fold_left (fun a c => 10 * a + (c - 48)) ds 0.

(** The integer part: [0] alone, or a digit [1-9] followed by digits. *)
Definition parse_int (s : jsstring) : option (jsstring * jsstring) :=
  match s with
  | c :: r =>
      if c =? 48 then Some ([c], r)
      else if is_digit c then
        let (ds, r') := span_digits r in Some (c :: ds, r')
      else None
  | [] => None
  end.

(** An optional fraction: [.] and at least one digit. *)
Definition parse_frac (s : jsstring) : option (jsstring * jsstring) :=
  match s with
  | c :: r =>
      if c =? 46 then
        match span_digits r with
        | ([], _) => None
        | (ds, r') => Some (c :: ds, r')
        end
      else Some ([], s)
  | [] => Some ([], [])
  end.

(** An optional exponent: [e] or [E], an optional sign, at least one
    digit. *)
Definition parse_exp (s : jsstring) : option (jsstring * jsstring) :=
  match s with
  | c :: r =>
      if (c =? 101) || (c =? 69) then
        let (sign, r1) :=
          match r with
          | d :: r0 => if (d =? 43) || (d =? 45) then ([d], r0) else ([], r)
          | [] => ([], r)
          end in
        match span_digits r1 with
        | ([], _) => None
        | (ds, r') => Some (c :: sign ++ ds, r')
        end
      else Some ([], s)
  | [] => Some ([], [])
  end.

(** A number token without its sign: integer part, optional fraction,
    optional exponent. *)
Definition parse_unsigned (neg : bool) (s : jsstring) : parsed jsvalue :=
  match parse_int s with
  | None => Malformed
  | Some (ip, s2) =>
      match parse_frac s2 with
      | None => Malformed
      | Some (fp, s3) =>
          match parse_exp s3 with
          | None => Malformed
          | Some (ep, s4) =>
              match fp, ep with
              | [], [] =>
                  let n := Z.of_N (decimal_value ip) in
                  Parsed (JNum (if neg then (- n)%Z else n)) s4
              | _, _ =>
                  Parsed (JDecimal ((if neg then [45] else []) ++ ip ++ fp ++ ep)) s4
              end
          end
      end
  end.

Definition parse_number (s : jsstring) : parsed jsvalue :=
  match s with
  | c :: r => if c =? 45 then parse_unsigned true r else parse_unsigned false s
  | [] => Malformed
  end.

Definition hex_value (c : N) : option N :=
  if is_digit c then Some (c - 48)
  else if (97 <=? c) && (c <=? 102) then Some (c - 87)
  else if (65 <=? c) && (c <=? 70) then Some (c - 55)
  else None.

Definition hex4 (a b c d : N) : option N :=
  match hex_value a, hex_value b, hex_value c, hex_value d with
  | Some x, Some y, Some z, Some w => Some (((x * 16 + y) * 16 + z) * 16 + w)
  | _, _, _, _ => None
  end.

(** The character a one-letter escape stands for. *)
Definition unescape (e : N) : option N :=
  if e =? 34 then Some 34
  else if e =? 92 then Some 92
  else if e =? 47 then Some 47
  else if e =? 98 then Some 8
  else if e =? 102 then Some 12
  else if e =? 110 then Some 10
  else if e =? 114 then Some 13
  else if e =? 116 then Some 9
  else None.

Definition cons_char (c : N) (p : option (jsstring * jsstring)) :
  option (jsstring * jsstring) :=
  match p with
  | Some (s, r) => Some (c :: s, r)
  | None => None
  end.

(** The characters of a string after its opening quote, up to and including
    the closing quote. *)
Fixpoint parse_string_chars (s : jsstring) : option (jsstring * jsstring) :=
  match s with
  | [] => None
  | c :: r =>
      if c =? 34 then Some ([], r)
      else if c =? 92 then
        match r with
        | e :: r' =>
            if e =? 117 then
              match r' with
              | h1 :: h2 :: h3 :: h4 :: r'' =>
                  match hex4 h1 h2 h3 h4 with
                  | Some u => cons_char u (parse_string_chars r'')
                  | None => None
                  end
              | _ => None
              end
            else
              match unescape e with
              | Some u => cons_char u (parse_string_chars r')
              | None => None
              end
        | [] => None
        end
      else if c <? 32 then None
      else cons_char c (parse_string_chars r)
  end.

(** [s] starts with the characters [w]: what follows them. *)
Fixpoint strip_prefix (w s : jsstring) : option jsstring :=
  match w, s with
  | [], _ => Some s
  | x :: w', y :: s' => if x =? y then strip_prefix w' s' else None
  | _ :: _, [] => None
  end.

Definition parse_literal (w : string) (v : jsvalue) (s : jsstring) : parsed jsvalue :=
  match strip_prefix (lit w) s with
  | Some r => Parsed v r
  | None => Malformed
  end.

(** A value, the elements of an array after the first [[], the members of
    an object after the [{]. *)
Fixpoint parse_value (fuel : nat) (s : jsstring) : parsed jsvalue :=
  match fuel with
  | O => OutOfFuel
  | S fuel' =>
      match skip_ws s with
      | [] => Malformed
      | c :: r =>
          if c =? 91 then
            match skip_ws r with
            | c' :: r' =>
                if c' =? 93 then Parsed (JArr []) r'
                else parse_elements fuel' [] r
            | [] => Malformed
            end
          else if c =? 123 then
            match skip_ws r with
            | c' :: r' =>
                if c' =? 125 then Parsed (JObj []) r'
                else parse_members fuel' [] r
            | [] => Malformed
            end
          else if c =? 34 then
            match parse_string_chars r with
            | Some (str, r') => Parsed (JStr str) r'
            | None => Malformed
            end
          else if c =? 116 then parse_literal "true" (JBool true) (c :: r)
          else if c =? 102 then parse_literal "false" (JBool false) (c :: r)
          else if c =? 110 then parse_literal "null" JNull (c :: r)
          else parse_number (c :: r)
      end
  end
with parse_elements (fuel : nat) (acc : list jsvalue) (s : jsstring) : parsed jsvalue :=
  match fuel with
  | O => OutOfFuel
  | S fuel' =>
      match parse_value fuel' s with
      | Parsed v r =>
          match skip_ws r with
          | c :: r' =>
              if c =? 44 then parse_elements fuel' (v :: acc) r'
              else if c =? 93 then Parsed (JArr (rev (v :: acc))) r'
              else Malformed
          | [] => Malformed
          end
      | Malformed => Malformed
      | OutOfFuel => OutOfFuel
      end
  end
with parse_members (fuel : nat) (acc : list (jsstring * jsvalue)) (s : jsstring) :
  parsed jsvalue :=
  match fuel with
  | O => OutOfFuel
  | S fuel' =>
      match skip_ws s with
      | c :: r =>
          if c =? 34 then
            match parse_string_chars r with
            | Some (k, r1) =>
                match skip_ws r1 with
                | c1 :: r2 =>
                    if c1 =? 58 then
                      match parse_value fuel' r2 with
                      | Parsed v r3 =>
                          match skip_ws r3 with
                          | c3 :: r4 =>
                              if c3 =? 44 then parse_members fuel' ((k, v) :: acc) r4
                              else if c3 =? 125 then
                                Parsed (JObj (rev ((k, v) :: acc))) r4
                              else Malformed
                          | [] => Malformed
                          end
                      | Malformed => Malformed
                      | OutOfFuel => OutOfFuel
                      end
                    else Malformed
                | [] => Malformed
                end
            | None => Malformed
            end
          else Malformed
      | [] => Malformed
      end
  end.

(** [JSON.parse(text)]: one value, surrounded by optional white space,
    spanning the whole text; anything else throws a [SyntaxError].  The
    budget [2 * length text + 1] is never spent (lemma
    [parse_value_fuel]). *)
Definition parse (text : jsstring) : completion syntax_error jsvalue :=
  match parse_value (2 * List.length text + 1) text with
  | Parsed v r =>
      match skip_ws r with
      | [] => Normal v
      | _ :: _ => Throw SyntaxError
      end
  | Malformed => Throw SyntaxError
  | OutOfFuel => Throw SyntaxError
  end.

End JS.

(** ** The notification surface ([@/hooks/use-toast]) *)

Module Toast.

(** Modelled from the spec: the argument of [toast], whose module
    [@/hooks/use-toast] is not among the sources; a short structure of
    title, description and variant. *)
Record t : Type := mk {
  title : JS.jsstring;
  description : JS.jsstring;
  variant : option JS.jsstring
}.

End Toast.

(** ** The cart store ([CartProvider]) *)

Module Product.

(** Modelled from the spec: the [Product] type of [@/types], which is not
    among the sources; the fields are those the cart store reads. *)
Record t : Type := mk {
  id : JS.jsstring;
  name : JS.jsstring;
  price : Z;
  image : JS.jsstring
}.

End Product.

Module CartItem.

(** Modelled from the spec: the [CartItem] type of [@/types], which is not
    among the sources; product identifier, display title, unit price, image
    reference and quantity, the fields [addToCart] fills in. *)
Record t : Type := mk {
  productId : JS.jsstring;
  title : JS.jsstring;
  price : Z;
  imageUrl : JS.jsstring;
  quantity : Z
}.

(** [{ ...item, quantity: q }]. *)
Definition with_quantity (item : t) (q : Z) : t :=
  mk (productId item) (title item) (price item) (imageUrl item) q.

(** The object an entry is, as [JSON.stringify] sees it. *)
Definition to_js (item : t) : JS.jsvalue :=
  JS.JObj
    [ (JS.lit "productId", JS.JStr (productId item));
      (JS.lit "title", JS.JStr (title item));
      (JS.lit "price", JS.JNum (price item));
      (JS.lit "imageUrl", JS.JStr (imageUrl item));
      (JS.lit "quantity", JS.JNum (quantity item)) ].

End CartItem.

Module Cart.

Import JS.

Local Open Scope Z_scope.

(** [localStorage]: string keys to string values. *)
Definition Storage := list (jsstring * jsstring).

Fixpoint getItem (st : Storage) (key : jsstring) : option jsstring :=
  match st with
  | [] => None
  | (k, v) :: st' => if str_eqb k key then Some v else getItem st' key
  end.

Fixpoint setItem (st : Storage) (key value : jsstring) : Storage :=
  match st with
  | [] => [(key, value)]
  | (k, v) :: st' =>
      if str_eqb k key then (k, value) :: st' else (k, v) :: setItem st' key value
  end.

(** The array of entries as a JavaScript value. *)
Definition items_to_js (items : list CartItem.t) : jsvalue :=
  JArr (map CartItem.to_js items).

(** The state of the provider: the [items] state variable, the toasts raised
    so far, and the device storage. *)
Record CartState : Type := mkState {
  items : list CartItem.t;
  toasts : list Toast.t;
  localStorage : Storage
}.

(** The initializer of [useState]:
    [saved ? JSON.parse(saved) : []] with [saved = localStorage.getItem('cart')]. *)
Definition initialItems (st : Storage) : completion syntax_error jsvalue :=
  match getItem st (lit "cart") with
  | Some saved => if truthy_string saved then parse saved else Normal (JArr [])
  | None => Normal (JArr [])
  end.

(** The effect on [[items]]:
    [localStorage.setItem('cart', JSON.stringify(items))]. *)
Definition persist (s : CartState) : CartState :=
  mkState (items s) (toasts s)
          (setItem (localStorage s) (lit "cart") (stringify (items_to_js (items s)))).

(** [setItems(updater)]: the updater maps the previous entries to the
    toasts it raises and the next entries; the render that follows runs the
    persisting effect. *)
Definition setItems (updater : list CartItem.t -> list Toast.t * list CartItem.t)
  (s : CartState) : CartState :=
  let (raised, next) := updater (items s) in
  persist (mkState next (toasts s ++ raised) (localStorage s)).

Definition toast (t : Toast.t) (s : CartState) : CartState :=
  mkState (items s) (toasts s ++ [t]) (localStorage s).

Definition addToCart_updater (product : Product.t) (quantity : Z)
  (prev : list CartItem.t) : list Toast.t * list CartItem.t :=
  match array_find (fun item => str_eqb (CartItem.productId item) (Product.id product)) prev with
  | Some existing =>
      ([Toast.mk (lit "Cart Updated")
                 (Product.name product ++ lit " quantity increased to "
                    ++ number_to_string (CartItem.quantity existing + quantity))
                 None],
       array_map
         (fun item =>
            if str_eqb (CartItem.productId item) (Product.id product)
            then CartItem.with_quantity item (CartItem.quantity item + quantity)
            else item)
         prev)
  | None =>
      ([Toast.mk (lit "Added to Cart")
                 (Product.name product ++ lit " has been added to your cart")
                 None],
       prev ++ [CartItem.mk (Product.id product) (Product.name product)
                            (Product.price product) (Product.image product) quantity])
  end.

(** [addToCart(product, quantity = 1)]. *)
Definition addToCart (product : Product.t) (quantity : option Z) : CartState -> CartState :=
  setItems (addToCart_updater product (nullish quantity 1)).

Definition removeFromCart_updater (productId : jsstring)
  (prev : list CartItem.t) : list Toast.t * list CartItem.t :=
  let item := array_find (fun i => str_eqb (CartItem.productId i) productId) prev in
  (match item with
   | Some item =>
       [Toast.mk (lit "Removed from Cart")
                 (CartItem.title item ++ lit " has been removed")
                 (Some (lit "destructive"))]
   | None => []
   end,
   array_filter (fun item => negb (str_eqb (CartItem.productId item) productId)) prev).

Definition removeFromCart (productId : jsstring) : CartState -> CartState :=
  setItems (removeFromCart_updater productId).

Definition updateQuantity (productId : jsstring) (quantity : Z) : CartState -> CartState :=
  if quantity <? 1 then removeFromCart productId
  else
    setItems
      (fun prev =>
         ([],
          array_map
            (fun item =>
               if str_eqb (CartItem.productId item) productId
               then CartItem.with_quantity item quantity
               else item)
            prev)).

Definition clearCart (s : CartState) : CartState :=
  toast (Toast.mk (lit "Cart Cleared")
                  (lit "All items have been removed from your cart") None)
        (setItems (fun _ => ([], [])) s).


Definition totalPrice (s : CartState) : Z :=
  array_reduce (fun sum item => sum + CartItem.price item * CartItem.quantity item) 0 (items s).

(** A call of one of the four mutating operations. *)
Inductive Call : Type :=
| AddToCart (product : Product.t) (quantity : option Z)
| RemoveFromCart (productId : jsstring)
| UpdateQuantity (productId : jsstring) (quantity : Z)
| ClearCart.

Definition call (c : Call) : CartState -> CartState :=
  match c with
  | AddToCart p q => addToCart p q
  | RemoveFromCart i => removeFromCart i
  | UpdateQuantity i q => updateQuantity i q
  | ClearCart => clearCart
  end.

(** Calls made one after the other. *)
Definition run (cs : list Call) (s : CartState) : CartState :=
  fold_left (fun st c => call c st) cs s.

(** The store on a device with nothing saved. *)
Definition emptyCart : CartState := persist (mkState [] [] []).

End Cart.

(** ** The session store ([AuthProvider]) *)

(** An error object of the backend client: [message] and [code] may be
    missing. *)
Module ApiError.

Record t : Type := mk {
  message : option JS.jsstring;
  code : option JS.jsstring
}.

End ApiError.

Module AppUser.

(** Modelled from the spec: the [User] type of [@/types], which is not
    among the sources; identifier, display name, email and optional avatar
    reference, the fields [fetchProfile] fills in. *)
Record t : Type := mk {
  id : JS.jsstring;
  name : JS.jsstring;
  email : JS.jsstring;
  avatar : option JS.jsstring
}.

End AppUser.

(** The backend-as-a-service client ([supabase], of [@/lib/supabaseClient]):
    the calls the session store makes and the parts of their answers it
    reads. *)
Module Supabase.

Import JS.

(** An awaited promise settles. *)
Inductive settled (A : Type) : Type :=
| Fulfilled (a : A)
| Rejected (e : ApiError.t).

Arguments Fulfilled {A} a.
Arguments Rejected {A} e.

(** [session.user]. *)
Record AuthUser : Type := mkAuthUser {
  user_id : jsstring;
  user_email : option jsstring
}.

(** [data.session] of [auth.getSession()]. *)
Record Session : Type := mkSession {
  session_user : option AuthUser
}.

Record SessionResponse : Type := mkSessionResponse {
  data_session : option Session
}.

(** [{ data, error }] of [auth.signInWithPassword]. *)
Record SignInResponse : Type := mkSignInResponse {
  signin_user : option AuthUser;
  signin_error : option ApiError.t
}.

(** A row of the [profiles] table, columns [id, full_name, avatar, created_at]. *)
Record ProfileRow : Type := mkProfileRow {
  row_id : jsstring;
  full_name : option jsstring;
  row_avatar : option jsstring;
  created_at : jsstring
}.

(** [{ data, error }] of [from('profiles').select(..).eq('id', uid).single()]. *)
Record SelectResponse : Type := mkSelectResponse {
  select_data : option ProfileRow;
  select_error : option ApiError.t
}.

(** [{ error }] of [auth.signOut()]. *)
Record SignOutResponse : Type := mkSignOutResponse {
  signout_error : option ApiError.t
}.

(** How the backend answers each call the store makes. *)
Record Backend : Type := mkBackend {
  getSession : settled SessionResponse;
  signInWithPassword : jsstring -> jsstring -> settled SignInResponse;
  selectProfile : jsstring -> settled SelectResponse;
  signOut : settled SignOutResponse
}.

(** The code the profile query reports when no row matches. *)
Definition PGRST116 : jsstring := lit "PGRST116".

End Supabase.

Module Auth.

Import JS Supabase.

(** The state of the provider, the toasts raised and the console. *)
Record AuthState : Type := mkState {
  user : option AppUser.t;
  isLoading : bool;
  toasts : list Toast.t;
  console : list (jsstring * ApiError.t)
}.

(** A computation over the provider's state that returns or throws. *)
Definition M (A : Type) : Type := AuthState -> AuthState * completion ApiError.t A.

Definition ret {A} (a : A) : M A := fun s => (s, Normal a).

Definition bind {A B} (m : M A) (k : A -> M B) : M B :=
  fun s =>
    match m s with
    | (s', Normal a) => k a s'
    | (s', Throw e) => (s', Throw e)
    end.

Definition throw {A} (e : ApiError.t) : M A := fun s => (s, Throw e).

(** [await p]: the value of a fulfilled promise; a rejection is thrown. *)
Definition await {A} (p : settled A) : M A :=
  match p with
  | Fulfilled a => ret a
  | Rejected e => throw e
  end.

(** [try { body } catch (err) { handler }]. *)
Definition try_catch {A} (body : M A) (handler : ApiError.t -> M A) : M A :=
  fun s =>
    match body s with
    | (s', Normal a) => (s', Normal a)
    | (s', Throw e) => handler e s'
    end.

(** [try { body } catch (err) { handler } finally { final }]. *)
Definition try_catch_finally {A} (body : M A) (handler : ApiError.t -> M A)
  (final : M unit) : M A :=
  fun s =>
    match try_catch body handler s with
    | (s', r) =>
        match final s' with
        | (s'', Normal _) => (s'', r)
        | (s'', Throw e) => (s'', Throw e)
        end
    end.

Declare Scope auth_scope.
Delimit Scope auth_scope with auth.
Notation "x <- m ;; k" := (bind m (fun x => k))
  (at level 100, m at next level, right associativity) : auth_scope.
Notation "m ;; k" := (bind m (fun _ => k))
  (at level 100, right associativity) : auth_scope.
Local Open Scope auth_scope.

Definition setUser (u : option AppUser.t) : M unit :=
  fun s => (mkState u (isLoading s) (toasts s) (console s), Normal tt).

Definition setIsLoading (b : bool) : M unit :=
  fun s => (mkState (user s) b (toasts s) (console s), Normal tt).

Definition toast (t : Toast.t) : M unit :=
  fun s => (mkState (user s) (isLoading s) (toasts s ++ [t]) (console s), Normal tt).

Definition console_error (label : string) (err : ApiError.t) : M unit :=
  fun s => (mkState (user s) (isLoading s) (toasts s) (console s ++ [(lit label, err)]),
            Normal tt).

(** [!uid]: [null] and the empty string are falsy. *)
Definition falsy_uid (uid : option jsstring) : bool :=
  match uid with
  | Some u => negb (truthy_string u)
  | None => true
  end.

(** [error && error.code !== 'PGRST116']. *)
Definition is_other_error (e : ApiError.t) : bool :=
  match ApiError.code e with
  | Some c => negb (str_eqb c PGRST116)
  | None => true
  end.

(** [fetchProfile(uid)]: the profile row of [uid], joined with the email of
    the session. *)
Definition fetchProfile (B : Backend) (uid : option jsstring) : M unit :=
  match uid with
  | Some u =>
      if falsy_uid uid then setUser None
      else
        try_catch
          (session <- await (getSession B) ;;
           let email :=
             nullish
               (match data_session session with
                | Some ss =>
                    match session_user ss with
                    | Some au => user_email au
                    | None => None
                    end
                | None => None
                end)
               (lit "") in
           r <- await (selectProfile B u) ;;
           match select_error r with
           | Some error => if is_other_error error then throw error else ret tt
           | None => ret tt
           end ;;
           match select_data r with
           | Some data =>
               setUser
                 (Some (AppUser.mk (row_id data)
                                   (nullish (full_name data) (lit ""))
                                   email
                                   (row_avatar data)))
           | None => setUser None
           end)
          (fun err => console_error "fetchProfile error" err ;; setUser None)
  | None => setUser None
  end.

(** [signIn(email, password)]. *)
Definition signIn (B : Backend) (email password : jsstring) : M bool :=
  setIsLoading true ;;
  try_catch_finally
    (r <- await (signInWithPassword B email password) ;;
     match signin_error r with
     | Some error => throw error
     | None => ret tt
     end ;;
     let uid := option_map user_id (signin_user r) in
     fetchProfile B uid ;;
     toast (Toast.mk (lit "Signed in") (lit "Welcome back!") None) ;;
     ret true)
    (fun err =>
       console_error "signIn error" err ;;
       toast (Toast.mk (lit "Sign in failed")
                       (nullish (ApiError.message err) (lit "Invalid credentials"))
                       None) ;;
       ret false)
    (setIsLoading false).

(** [signOut()]. *)
Definition signOut (B : Backend) : M unit :=
  setIsLoading true ;;
  try_catch_finally
    (r <- await (Supabase.signOut B) ;;
     match signout_error r with
     | Some error => throw error
     | None => ret tt
     end ;;
     setUser None ;;
     toast (Toast.mk (lit "Logged out") (lit "You have been signed out.") None))
    (fun err =>
       console_error "signOut error" err ;;
       toast (Toast.mk (lit "Logout failed") (lit "Please try again.") None))
    (setIsLoading false).

End Auth.

(** ** The session store, continued: the other operations of [AuthProvider] *)

(** The further calls the session store makes, the clock and the page
    origin. *)
Module Services.

Import JS Supabase.

(** [{ data, error }] of [auth.signUp]. *)
Record SignUpResponse : Type := mkSignUpResponse {
  signup_user : option AuthUser;
  signup_error : option ApiError.t
}.

(** The row [createOrUpdateProfile] writes. *)
Record ProfilePayload : Type := mkProfilePayload {
  payload_id : jsstring;
  payload_full_name : jsstring;
  payload_avatar : option jsstring;
  payload_updated_at : jsstring
}.

(** [{ error }] of [from('profiles').upsert(payload)]. *)
Record UpsertResponse : Type := mkUpsertResponse {
  upsert_error : option ApiError.t
}.

(** [{ data, error }] of [auth.resetPasswordForEmail]. *)
Record ResetResponse : Type := mkResetResponse {
  reset_error : option ApiError.t
}.

Record t : Type := mk {
  backend : Backend;
  (** [auth.signUp({ email, password, options: { data: { full_name } } })] *)
  signUp : jsstring -> jsstring -> jsstring -> settled SignUpResponse;
  upsert : ProfilePayload -> settled UpsertResponse;
  (** [auth.resetPasswordForEmail(email, { redirectTo })] *)
  resetPasswordForEmail : jsstring -> jsstring -> settled ResetResponse;
  (** [new Date().toISOString()] *)
  now : jsstring;
  (** [window.location.origin] *)
  origin : jsstring
}.

End Services.

Module AuthMore.

Import JS Supabase Auth.

Local Open Scope auth_scope.

(** The provider as it is created: nobody signed in, loading. *)
Definition initialState : AuthState := mkState None true [] [].

(** [isAuthenticated: !!user]. *)
Definition isAuthenticated (s : AuthState) : bool :=
  match user s with
  | Some _ => true
  | None => false
  end.

(** [createOrUpdateProfile(uid, full_name, avatar?)]. *)
Definition createOrUpdateProfile (E : Services.t) (uid full_name : jsstring)
  (avatar : option jsstring) : M unit :=
  let payload := Services.mkProfilePayload uid full_name avatar (Services.now E) in
  r <- await (Services.upsert E payload) ;;
  match Services.upsert_error r with
  | Some error => throw error
  | None => ret tt
  end.

(** [signUp(name, email, password)]. *)
Definition signUp (E : Services.t) (name email password : jsstring) : M bool :=
  setIsLoading true ;;
  try_catch_finally
    (r <- await (Services.signUp E email password name) ;;
     match Services.signup_error r with
     | Some error => throw error
     | None => ret tt
     end ;;
     let userId := option_map user_id (Services.signup_user r) in
     match userId with
     | Some u =>
         if falsy_uid userId then ret tt
         else
           createOrUpdateProfile E u name None ;;
           fetchProfile (Services.backend E) userId
     | None => ret tt
     end ;;
     toast (Toast.mk (lit "Account created")
                     (lit "Check your email to confirm (if required).") None) ;;
     ret true)
    (fun err =>
       console_error "signUp error" err ;;
       toast (Toast.mk (lit "Signup failed")
                       (nullish (ApiError.message err) (lit "Unable to create account"))
                       None) ;;
       ret false)
    (setIsLoading false).

(** [sendPasswordReset(email)]. *)
Definition sendPasswordReset (E : Services.t) (email : jsstring) : M bool :=
  setIsLoading true ;;
  try_catch_finally
    (r <- await (Services.resetPasswordForEmail E email
                   (Services.origin E ++ lit "/reset-password")) ;;
     match Services.reset_error r with
     | Some error => throw error
     | None => ret tt
     end ;;
     toast (Toast.mk (lit "Password Reset")
                     (lit "Check your email for reset instructions.") None) ;;
     ret true)
    (fun err =>
       console_error "sendPasswordReset error" err ;;
       toast (Toast.mk (lit "Reset failed")
                       (nullish (ApiError.message err) (lit "Unable to send reset email"))
                       None) ;;
       ret false)
    (setIsLoading false).

(** [session?.user?.id ?? null]. *)
Definition session_uid (session : option Session) : option jsstring :=
  match session with
  | Some ss => option_map user_id (session_user ss)
  | None => None
  end.

(** [refreshProfile()]: no [try] around the read of the session.  The
    backend record holds one answer per call, so the read made here and the
    one [fetchProfile] makes get the same answer. *)
Definition refreshProfile (B : Backend) : M unit :=
  session <- await (getSession B) ;;
  fetchProfile B (session_uid (data_session session)).

(** The asynchronous function the mount effect starts; [mounted] is the
    flag as it stands when the session has been read. *)
Definition syncSession (B : Backend) (mounted : bool) : M unit :=
  sessionData <- await (getSession B) ;;
  let uid := session_uid (data_session sessionData) in
  (if mounted then fetchProfile B uid else ret tt) ;;
  setIsLoading false.

End AuthMore.

(** ** [encodeURIComponent] (ECMA-262, Encode) *)

Module URI.

Import JS.

Local Open Scope N_scope.

(** What [encodeURIComponent] throws. *)
Inductive uri_error : Type := URIError.

Definition is_upper (c : N) : bool := (65 <=? c) && (c <=? 90).
Definition is_lower (c : N) : bool := (97 <=? c) && (c <=? 122).

(** The characters left as they are: letters, digits and [-_.!~*'()]. *)
Definition unescaped (c : N) : bool :=
  is_upper c || is_lower c || is_digit c
  || (c =? 45) || (c =? 95) || (c =? 46) || (c =? 33) || (c =? 126)
  || (c =? 42) || (c =? 39) || (c =? 40) || (c =? 41).

Definition hex_upper (d : N) : N := if d <? 10 then 48 + d else 55 + d.

(** One octet as [%XX]. *)
Definition percent (b : N) : jsstring :=
  [37; hex_upper ((b / 16) mod 16); hex_upper (b mod 16)].

(** The UTF-8 octets of a code point. *)
Definition utf8 (cp : N) : list N :=
  if cp <? 128 then [cp]
  else if cp <? 2048 then [192 + cp / 64; 128 + cp mod 64]
  else if cp <? 65536 then [224 + cp / 4096; 128 + (cp / 64) mod 64; 128 + cp mod 64]
  else [240 + cp / 262144; 128 + (cp / 4096) mod 64; 128 + (cp / 64) mod 64;
        128 + cp mod 64].

Definition escape (cp : N) : jsstring := flat_map percent (utf8 cp).

(** UTF16SurrogatePairToCodePoint. *)
Definition pair_code_point (lead trail : N) : N :=
  (lead - 55296) * 1024 + (trail - 56320) + 65536.

Definition cons_text (t : jsstring) (r : completion uri_error jsstring) :
  completion uri_error jsstring :=
  match r with
  | Normal out => Normal (t ++ out)
  | Throw e => Throw e
  end.

(** [encodeURIComponent(s)]. *)
Fixpoint encodeURIComponent (s : jsstring) : completion uri_error jsstring :=
  match s with
  | [] => Normal []
  | c :: r =>
      if unescaped c then cons_text [c] (encodeURIComponent r)
      else if is_trail c then Throw URIError
      else if is_lead c then
        match r with
        | d :: r' =>
            if is_trail d
            then cons_text (escape (pair_code_point c d)) (encodeURIComponent r')
            else Throw URIError
        | [] => Throw URIError
        end
      else cons_text (escape c) (encodeURIComponent r)
  end.

End URI.

(** ** The header ([Header]) *)

Module Header.

Import JS Cart.

(** The theme of the header: the [isDarkMode] state variable, the class
    list of the root element and the device storage. *)
Record ThemeState : Type := mkTheme {
  isDarkMode : bool;
  classList : list jsstring;
  localStorage : Storage
}.

(** The initializer of [isDarkMode]:
    [localStorage.getItem("theme") === "dark"]. *)
Definition initialDarkMode (st : Storage) : bool :=
  match getItem st (lit "theme") with
  | Some v => str_eqb v (lit "dark")
  | None => false
  end.

Definition contains (token : jsstring) (l : list jsstring) : bool :=
  existsb (str_eqb token) l.

(** [classList.add(token)]. *)
Definition classList_add (token : jsstring) (l : list jsstring) : list jsstring :=
  if contains token l then l else l ++ [token].

(** [classList.remove(token)]. *)
Definition classList_remove (token : jsstring) (l : list jsstring) : list jsstring :=
  filter (fun t => negb (str_eqb token t)) l.

(** The effect on [[isDarkMode]]. *)
Definition applyTheme (s : ThemeState) : ThemeState :=
  if isDarkMode s
  then mkTheme true (classList_add (lit "dark") (classList s))
               (setItem (localStorage s) (lit "theme") (lit "dark"))
  else mkTheme false (classList_remove (lit "dark") (classList s))
               (setItem (localStorage s) (lit "theme") (lit "light")).

(** The theme button: [setIsDarkMode(!isDarkMode)], then the effect. *)
Definition toggleTheme (s : ThemeState) : ThemeState :=
  applyTheme (mkTheme (negb (isDarkMode s)) (classList s) (localStorage s)).


(** [handleSearchSubmit(query)]: the path given to [navigate],
    [`/shop?q=${encodeURIComponent(query)}`]. *)
Definition handleSearchSubmit (query : jsstring) : completion URI.uri_error jsstring :=
  match URI.encodeURIComponent query with
  | Normal q => Normal (lit "/shop?q=" ++ q)
  | Throw e => Throw e
  end.

(** The value [AuthProvider] publishes, by member name. *)
Inductive Member : Type :=
| MUser (u : option AppUser.t)
| MFlag (b : bool)
| MSignIn
| MSignUp
| MSignOut
| MSendPasswordReset
| MRefreshProfile.

Definition contextValue (s : Auth.AuthState) : list (jsstring * Member) :=
  [ (lit "user", MUser (Auth.user s));
    (lit "isAuthenticated", MFlag (AuthMore.isAuthenticated s));
    (lit "isLoading", MFlag (Auth.isLoading s));
    (lit "signIn", MSignIn);
    (lit "signUp", MSignUp);
    (lit "signOut", MSignOut);
    (lit "sendPasswordReset", MSendPasswordReset);
    (lit "refreshProfile", MRefreshProfile) ].

(** [value.name]: [undefined] when the object has no such member. *)
Fixpoint member (name : jsstring) (value : list (jsstring * Member)) : option Member :=
  match value with
  | [] => None
  | (k, m) :: value' => if str_eqb k name then Some m else member name value'
  end.

(** [const { user, isAuthenticated, logout } = useAuth()]: the handler of
    the two Logout buttons. *)
Definition logout (s : Auth.AuthState) : option Member :=
  member (lit "logout") (contextValue s).

(** A click on a button whose [onClick] is [handler]: nothing runs when it
    is [undefined]; [call] is what calling a member does. *)
Definition click {S : Type} (call : Member -> S -> S) (handler : option Member) (s : S) : S :=
  match handler with
  | Some m => call m s
  | None => s
  end.

End Header.

(** * Vocabulary of the properties *)

Unset Implicit Arguments.

Section Vocabulary.

Import JS Cart Supabase Auth.

(** ** Texts *)

(** Reading digits back, continuing from the number read so far. *)
Definition read_digits (a : N) (ds : jsstring) : N :=
  fold_left (fun a c => (10 * a + (c - 48))%N) ds a.

(** The text after a run of digits does not go on with a digit. *)
Definition no_digit_ahead (rest : jsstring) : Prop :=
  match rest with
  | c :: _ => is_digit c = false
  | [] => True
  end.

(** What may follow a number token without being read as part of it. *)
Definition ends_number (rest : jsstring) : bool :=
  match rest with
  | c :: _ => negb (is_digit c || (c =? 46) || (c =? 101) || (c =? 69))%N
  | [] => true
  end.

(** A finished parse consumed text; the budget was not spent. *)
Definition consumes {A : Type} (s : jsstring) (res : parsed A) : Prop :=
  match res with
  | Parsed _ r => (List.length r < List.length s)%nat
  | Malformed => True
  | OutOfFuel => False
  end.

(** ** The cart *)


(** The test [item.productId === id]. *)
Definition has_id (id : jsstring) (item : CartItem.t) : bool :=
  str_eqb (CartItem.productId item) id.

(** The entry [addToCart] makes of a product. *)
Definition entry (p : Product.t) (q : Z) : CartItem.t :=
  CartItem.mk (Product.id p) (Product.name p) (Product.price p) (Product.image p) q.

(** The toast [removeFromCart] raises for the entry it found. *)
Definition removed_toast (item : CartItem.t) : Toast.t :=
  Toast.mk (lit "Removed from Cart")
           (CartItem.title item ++ lit " has been removed")
           (Some (lit "destructive")).



(** The persisted copy is the serialization of the entries in memory. *)
Definition in_sync (s : CartState) : Prop :=
  getItem (Cart.localStorage s) (lit "cart") = Some (stringify (items_to_js (Cart.items s))).

(** ** The session *)

(** The error of the credential check, when it fails: a rejected call, or a
    response that carries an error. *)
Definition credential_error (B : Backend) (email password : jsstring) : option ApiError.t :=
  match signInWithPassword B email password with
  | Fulfilled r => signin_error r
  | Rejected e => Some e
  end.

(** The error of the backend sign-out, when it fails. *)
Definition signout_failure (B : Backend) : option ApiError.t :=
  match Supabase.signOut B with
  | Fulfilled r => signout_error r
  | Rejected e => Some e
  end.

(** The profile query answers that no row matches. *)
Definition row_not_found (r : SelectResponse) : Prop :=
  select_data r = None /\
  exists e, select_error r = Some e /\ ApiError.code e = Some PGRST116.

Definition sign_in_failed_toast (err : ApiError.t) : Toast.t :=
  Toast.mk (lit "Sign in failed")
           (nullish (ApiError.message err) (lit "Invalid credentials")) None.

Definition signed_in_toast : Toast.t :=
  Toast.mk (lit "Signed in") (lit "Welcome back!") None.

Definition logout_failed_toast : Toast.t :=
  Toast.mk (lit "Logout failed") (lit "Please try again.") None.

Definition logged_out_toast : Toast.t :=
  Toast.mk (lit "Logged out") (lit "You have been signed out.") None.

(** ** Concrete data *)

(** A word of the source text between double quotes. *)
Definition quoted (w : string) : jsstring := 34%N :: lit w ++ [34%N].

(** Product P1 of the scenario: price 10. *)
Definition P1 : Product.t :=
  Product.mk (lit "P1") (lit "Mug") 10 (lit "/img/mug.png").

Definition P2 : Product.t :=
  Product.mk (lit "P2") (lit "Tea") 4 (lit "/img/tea.png").

(** A device whose saved cart is the empty string, and one whose saved
    cart was cut short. *)
Definition storage_empty_text : Storage := [(lit "cart", [])].

Definition storage_cut_short : Storage := [(lit "theme", lit "dark"); (lit "cart", lit "[{")].

Definition bad_password : ApiError.t :=
  ApiError.mk (Some (lit "Invalid login credentials")) (Some (lit "invalid_credentials")).

Definition no_rows : ApiError.t :=
  ApiError.mk (Some (lit "JSON object requested, multiple (or no) rows returned"))
              (Some PGRST116).

Definition ada : AuthUser := mkAuthUser (lit "u-1") (Some (lit "ada@example.org")).

(** A backend that refuses every credential and every sign-out. *)
Definition refusing : Backend :=
  mkBackend (Fulfilled (mkSessionResponse None))
            (fun _ _ => Fulfilled (mkSignInResponse None (Some bad_password)))
            (fun _ => Fulfilled (mkSelectResponse None (Some no_rows)))
            (Rejected (ApiError.mk (Some (lit "Failed to fetch")) None)).

(** A backend that accepts the credentials of a user who has no profile
    row yet. *)
Definition without_profile : Backend :=
  mkBackend (Fulfilled (mkSessionResponse (Some (mkSession (Some ada)))))
            (fun _ _ => Fulfilled (mkSignInResponse (Some ada) None))
            (fun _ => Fulfilled (mkSelectResponse None (Some no_rows)))
            (Fulfilled (mkSignOutResponse None)).

(** The provider before anyone signed in, and with someone signed in. *)
Definition signed_out : AuthState := Auth.mkState None false [] [].

Definition signed_in : AuthState :=
  Auth.mkState (Some (AppUser.mk (lit "u-1") (lit "Ada") (lit "ada@example.org") None))
               false [] [].

End Vocabulary.

(** * Vocabulary of the further properties *)

Section MoreVocabulary.

Import JS Cart Supabase Auth.

(** ** The cart *)

(** The ids of the entries, in order. *)
Definition ids (l : list CartItem.t) : list jsstring := map CartItem.productId l.


(** The toast [addToCart] raises for a product the cart holds. *)
Definition cart_updated_toast (p : Product.t) (q : Z) : Toast.t :=
  Toast.mk (lit "Cart Updated")
           (Product.name p ++ lit " quantity increased to " ++ number_to_string q) None.

(** ** Texts *)

(** A string in which every surrogate is half of a pair. *)
Fixpoint well_formed (s : jsstring) : bool :=
  match s with
  | [] => true
  | c :: r =>
      if is_trail c then false
      else if is_lead c then
        match r with
        | d :: r' => is_trail d && well_formed r'
        | [] => false
        end
      else well_formed r
  end.

(** A character [encodeURIComponent] writes: unescaped, [%], or an
    upper-case hexadecimal digit. *)
Definition uri_char (c : N) : bool :=
  (URI.unescaped c || (c =? 37) || ((65 <=? c) && (c <=? 70)))%N.

(** ** The session *)

Definition account_created_toast : Toast.t :=
  Toast.mk (lit "Account created") (lit "Check your email to confirm (if required).") None.

Definition signup_failed_toast (err : ApiError.t) : Toast.t :=
  Toast.mk (lit "Signup failed")
           (nullish (ApiError.message err) (lit "Unable to create account")) None.

Definition password_reset_toast : Toast.t :=
  Toast.mk (lit "Password Reset") (lit "Check your email for reset instructions.") None.

Definition reset_failed_toast (err : ApiError.t) : Toast.t :=
  Toast.mk (lit "Reset failed")
           (nullish (ApiError.message err) (lit "Unable to send reset email")) None.

(** The error of a sign-up, a profile write or a reset request, when it
    fails. *)
Definition signup_failure (E : Services.t) (name email password : jsstring) :
  option ApiError.t :=
  match Services.signUp E email password name with
  | Fulfilled r => Services.signup_error r
  | Rejected e => Some e
  end.

Definition upsert_failure (E : Services.t) (uid name : jsstring) : option ApiError.t :=
  match Services.upsert E (Services.mkProfilePayload uid name None (Services.now E)) with
  | Fulfilled r => Services.upsert_error r
  | Rejected e => Some e
  end.

Definition reset_failure (E : Services.t) (email : jsstring) : option ApiError.t :=
  match Services.resetPasswordForEmail E email (Services.origin E ++ lit "/reset-password") with
  | Fulfilled r => Services.reset_error r
  | Rejected e => Some e
  end.

(** The email of the session, as [fetchProfile] reads it. *)
Definition session_email (sr : SessionResponse) : jsstring :=
  nullish (match data_session sr with
           | Some ss => match session_user ss with
                        | Some au => user_email au
                        | None => None
                        end
           | None => None
           end) (lit "").

End MoreVocabulary.

(** ** Further concrete data *)

Section MoreData.

Import JS Cart Supabase Auth.

(** A sign-up that creates the user [ada] at once, with a profile table
    that takes the row, and one whose profile table refuses it. *)
Definition table_locked : ApiError.t :=
  ApiError.mk (Some (lit "new row violates row-level security policy")) (Some (lit "42501")).

Definition signing_up (write : settled Services.UpsertResponse) : Services.t :=
  Services.mk without_profile
              (fun _ _ _ => Fulfilled (Services.mkSignUpResponse (Some ada) None))
              (fun _ => write)
              (fun _ _ => Fulfilled (Services.mkResetResponse None))
              (lit "2026-01-01T00:00:00.000Z")
              (lit "https://matica.life").

(** A sign-up after which the email is still to be confirmed; reset
    requests are refused. *)
Definition confirming : Services.t :=
  Services.mk refusing
              (fun _ _ _ => Fulfilled (Services.mkSignUpResponse None None))
              (fun _ => Rejected table_locked)
              (fun _ _ => Rejected (ApiError.mk None None))
              (lit "2026-01-01T00:00:00.000Z")
              (lit "https://matica.life").

(** A backend that is out of reach. *)
Definition unreachable : Backend :=
  mkBackend (Rejected (ApiError.mk (Some (lit "Failed to fetch")) None))
            (fun _ _ => Rejected (ApiError.mk (Some (lit "Failed to fetch")) None))
            (fun _ => Rejected (ApiError.mk (Some (lit "Failed to fetch")) None))
            (Rejected (ApiError.mk (Some (lit "Failed to fetch")) None)).

(** A backend where [ada] is signed in and has her profile row. *)
Definition with_profile : Backend :=
  mkBackend (Fulfilled (mkSessionResponse (Some (mkSession (Some ada)))))
            (fun _ _ => Fulfilled (mkSignInResponse (Some ada) None))
            (fun _ => Fulfilled (mkSelectResponse
                                   (Some (mkProfileRow (lit "u-1") (Some (lit "Ada")) None
                                                       (lit "2025-12-01")))
                                   None))
            (Fulfilled (mkSignOutResponse None)).

(** A cart of two entries. *)
Definition two_entries : CartState :=
  addToCart P1 (Some 2%Z) (addToCart P2 (Some 5%Z) emptyCart).


End MoreData.

(** * Properties *)

(** ** Strings *)

Section StringFacts.

Import JS.

Lemma str_eqb_spec (a b : jsstring) : reflect (a = b) (str_eqb a b).
Proof.
  revert b; induction a as [|x a IH]; intros [|y b]; simpl;
    try (constructor; congruence).
  destruct (N.eqb_spec x y) as [->|Hxy]; simpl.
  - destruct (IH b) as [->|Hab]; constructor; congruence.
  - constructor; congruence.
Qed.

Lemma str_eqb_refl (a : jsstring) : str_eqb a a = true.
Proof. destruct (str_eqb_spec a a); congruence. Qed.

Lemma str_eqb_neq (a b : jsstring) : a <> b -> str_eqb a b = false.
Proof. destruct (str_eqb_spec a b); congruence. Qed.

End StringFacts.

(** ** Numbers as decimal text *)

Section NumberFacts.

Import JS.

Local Open Scope N_scope.

#[local] Arguments is_digit : simpl never.
#[local] Arguments N.eqb : simpl never.

Lemma is_digit_digit_char (d : N) : d < 10 -> is_digit (digit_char d) = true.
Proof.
  intro H. unfold is_digit, digit_char.
  apply andb_true_intro. split; apply N.leb_le; lia.
Qed.

Lemma digit_char_value (d : N) : digit_char d - 48 = d.
Proof. unfold digit_char. lia. Qed.

Lemma digits_aux_app (fuel : nat) : forall n acc,
  digits_aux fuel n acc = digits_aux fuel n [] ++ acc.
Proof.
  induction fuel as [|fuel IH]; intros n acc; simpl.
  - reflexivity.
  - destruct (n <? 10); [reflexivity|].
    rewrite IH, (IH _ [digit_char _]), <- app_assoc. reflexivity.
Qed.

(** The text written is made of digits only. *)
Lemma digits_aux_all_digits (fuel : nat) : forall n acc,
  Forall (fun c => is_digit c = true) acc ->
  Forall (fun c => is_digit c = true) (digits_aux fuel n acc).
Proof.
  assert (D : forall n, is_digit (digit_char (n mod 10)) = true).
  { intro n. apply is_digit_digit_char. apply N.mod_lt. lia. }
  induction fuel as [|fuel IH]; intros n acc Hacc; simpl.
  - constructor; [apply D | exact Hacc].
  - destruct (n <? 10).
    + constructor; [apply D | exact Hacc].
    + apply IH. constructor; [apply D | exact Hacc].
Qed.

Lemma read_digits_cons (a c : N) (l : jsstring) :
  read_digits a (c :: l) = read_digits (10 * a + (c - 48)) l.
Proof. reflexivity. Qed.

Lemma read_digits_small (n : N) (acc : jsstring) :
  n < 10 -> read_digits 0 (digit_char (n mod 10) :: acc) = read_digits n acc.
Proof.
  intro H. rewrite read_digits_cons, digit_char_value, N.mod_small by exact H.
  reflexivity.
Qed.

Lemma digits_aux_value (fuel : nat) : forall n acc,
  n < 10 ^ N.of_nat (S fuel) ->
  read_digits 0 (digits_aux fuel n acc) = read_digits n acc.
Proof.
  induction fuel as [|fuel IH]; intros n acc Hn.
  - apply read_digits_small. exact Hn.
  - cbn [digits_aux]. destruct (N.ltb_spec n 10) as [Hlt|Hge].
    + apply read_digits_small. exact Hlt.
    + rewrite IH.
      * rewrite read_digits_cons, digit_char_value. f_equal.
        pose proof (N.div_mod n 10). lia.
      * rewrite Nat2N.inj_succ, N.pow_succ_r' in Hn.
        apply N.Div0.div_lt_upper_bound. exact Hn.
Qed.

Lemma log2_bound (n : N) : n < 10 ^ N.of_nat (S (N.to_nat (N.log2 n))).
Proof.
  rewrite Nat2N.inj_succ, N2Nat.id.
  destruct (N.eq_dec n 0) as [->|Hn]; [reflexivity|].
  apply N.lt_le_trans with (2 ^ N.succ (N.log2 n)).
  - apply N.log2_spec. lia.
  - apply N.pow_le_mono_l. lia.
Qed.

Lemma decimal_value_digits (n : N) : decimal_value (digits n) = n.
Proof.
  unfold decimal_value, digits.
  change (fold_left (fun a c => 10 * a + (c - 48)) ?l 0) with (read_digits 0 l).
  rewrite digits_aux_value by apply log2_bound. reflexivity.
Qed.

(** The first digit written for a positive number is not [0]. *)
Lemma digits_aux_head (fuel : nat) : forall n acc,
  0 < n -> n < 10 ^ N.of_nat (S fuel) ->
  exists c tl, digits_aux fuel n acc = c :: tl /\ 49 <= c <= 57.
Proof.
  assert (B : forall n acc, 0 < n -> n < 10 ->
            exists c tl, digit_char (n mod 10) :: acc = c :: tl /\ 49 <= c <= 57).
  { intros n acc H0 H10. exists (digit_char (n mod 10)), acc.
    split; [reflexivity|]. rewrite N.mod_small by exact H10. unfold digit_char. lia. }
  induction fuel as [|fuel IH]; intros n acc H0 Hn.
  - apply B; assumption.
  - cbn [digits_aux]. destruct (N.ltb_spec n 10) as [Hlt|Hge].
    + apply B; assumption.
    + apply IH.
      * apply N.div_str_pos. lia.
      * rewrite Nat2N.inj_succ, N.pow_succ_r' in Hn.
        apply N.Div0.div_lt_upper_bound. exact Hn.
Qed.

Lemma digits_head (n : N) :
  0 < n -> exists c tl, digits n = c :: tl /\ 49 <= c <= 57.
Proof. intro H. apply digits_aux_head; [exact H | apply log2_bound]. Qed.

Lemma digits_cons (n : N) :
  exists c tl, digits n = c :: tl /\ 48 <= c <= 57.
Proof.
  destruct (N.eq_dec n 0) as [->|Hn].
  - exists 48, []. split; [reflexivity | lia].
  - destruct (digits_head n) as (c & tl & E & Hc); [lia|].
    exists c, tl. split; [exact E | lia].
Qed.

Lemma digits_all_digits (n : N) : Forall (fun c => is_digit c = true) (digits n).
Proof. apply digits_aux_all_digits. constructor. Qed.

Lemma span_digits_app (ds rest : jsstring) :
  Forall (fun c => is_digit c = true) ds -> no_digit_ahead rest ->
  span_digits (ds ++ rest) = (ds, rest).
Proof.
  intros Hds Hrest. induction Hds as [|c ds Hc _ IH]; simpl.
  - destruct rest as [|c r]; [reflexivity|]. simpl in Hrest |- *. rewrite Hrest. reflexivity.
  - rewrite Hc, IH. reflexivity.
Qed.

Lemma parse_int_digits (n : N) (rest : jsstring) :
  no_digit_ahead rest -> parse_int (digits n ++ rest) = Some (digits n, rest).
Proof.
  intro Hrest. destruct (N.eq_dec n 0) as [->|Hn]; [reflexivity|].
  destruct (digits_head n) as (c & tl & E & Hc); [lia|].
  pose proof (digits_all_digits n) as Hall. rewrite E in Hall |- *.
  inversion Hall as [|? ? Hd Htl]; subst.
  simpl. destruct (N.eqb_spec c 48) as [->|_]; [lia|].
  rewrite Hd, span_digits_app by assumption. reflexivity.
Qed.

Lemma ends_number_no_digit (rest : jsstring) :
  ends_number rest = true -> no_digit_ahead rest.
Proof.
  destruct rest as [|c r]; simpl; [trivial|].
  destruct (is_digit c); simpl; [discriminate | reflexivity].
Qed.

Lemma parse_frac_end (rest : jsstring) :
  ends_number rest = true -> parse_frac rest = Some ([], rest).
Proof.
  destruct rest as [|c r]; simpl; [reflexivity|].
  destruct (is_digit c), (c =? 46); simpl; try discriminate. reflexivity.
Qed.

Lemma parse_exp_end (rest : jsstring) :
  ends_number rest = true -> parse_exp rest = Some ([], rest).
Proof.
  destruct rest as [|c r]; simpl; [reflexivity|].
  destruct (is_digit c), (c =? 46), (c =? 101), (c =? 69); simpl;
    try discriminate; reflexivity.
Qed.

Lemma parse_unsigned_digits (neg : bool) (n : N) (rest : jsstring) :
  ends_number rest = true ->
  parse_unsigned neg (digits n ++ rest) =
  Parsed (JNum (if neg then (- Z.of_N n)%Z else Z.of_N n)) rest.
Proof.
  intro Hrest. unfold parse_unsigned.
  rewrite (parse_int_digits n rest (ends_number_no_digit rest Hrest)).
  rewrite (parse_frac_end rest Hrest), (parse_exp_end rest Hrest).
  rewrite decimal_value_digits. reflexivity.
Qed.

Lemma parse_number_to_string (z : Z) (rest : jsstring) :
  ends_number rest = true ->
  parse_number (number_to_string z ++ rest) = Parsed (JNum z) rest.
Proof.
  intro Hrest. unfold number_to_string.
  destruct (Z.ltb_spec z 0) as [Hneg|Hpos].
  - cbn [app parse_number]. rewrite N.eqb_refl.
    rewrite (parse_unsigned_digits true (Z.to_N (- z)) rest Hrest).
    f_equal. f_equal. lia.
  - assert (E : parse_number (digits (Z.to_N z) ++ rest) =
                parse_unsigned false (digits (Z.to_N z) ++ rest)).
    { destruct (digits_cons (Z.to_N z)) as (c & tl & Ed & Hc).
      rewrite Ed. cbn [app parse_number].
      destruct (N.eqb_spec c 45) as [->|_]; [lia | reflexivity]. }
    rewrite E, (parse_unsigned_digits false (Z.to_N z) rest Hrest).
    f_equal. f_equal. lia.
Qed.

(** A number token starts with [-] or with a digit. *)
Lemma number_to_string_head (z : Z) :
  exists c tl, number_to_string z = c :: tl /\ (c = 45 \/ 48 <= c <= 57).
Proof.
  unfold number_to_string. destruct (z <? 0)%Z.
  - eexists _, _. split; [reflexivity|]. left. reflexivity.
  - destruct (digits_cons (Z.to_N z)) as (c & tl & E & Hc).
    exists c, tl. split; [exact E|]. right. exact Hc.
Qed.

End NumberFacts.

(** ** Quoted strings *)

Section QuoteFacts.

Import JS.

Local Open Scope N_scope.

Lemma hex_value_hex_char (d : N) : d < 16 -> hex_value (hex_char d) = Some d.
Proof.
  intro H. unfold hex_char, hex_value, is_digit.
  destruct (N.ltb_spec d 10) as [Hlt|Hge].
  - replace ((48 <=? 48 + d) && (48 + d <=? 57)) with true.
    + f_equal. lia.
    + symmetry. apply andb_true_intro. split; apply N.leb_le; lia.
  - replace ((48 <=? 87 + d) && (87 + d <=? 57)) with false.
    + replace ((97 <=? 87 + d) && (87 + d <=? 102)) with true.
      * f_equal. lia.
      * symmetry. apply andb_true_intro. split; apply N.leb_le; lia.
    + symmetry. apply andb_false_intro2. apply N.leb_gt. lia.
Qed.

Lemma hex4_unicode_escape (c : N) :
  c < 65536 ->
  hex4 (hex_char ((c / 4096) mod 16)) (hex_char ((c / 256) mod 16))
       (hex_char ((c / 16) mod 16)) (hex_char (c mod 16)) = Some c.
Proof.
  intro H. unfold hex4.
  rewrite !hex_value_hex_char by (apply N.mod_lt; discriminate).
  f_equal.
  pose proof (N.div_mod c 16). pose proof (N.mod_lt c 16).
  pose proof (N.div_mod (c / 16) 16). pose proof (N.mod_lt (c / 16) 16).
  pose proof (N.div_mod (c / 16 / 16) 16). pose proof (N.mod_lt (c / 16 / 16) 16).
  replace (c / 256) with (c / 16 / 16) by (rewrite N.Div0.div_div; reflexivity).
  replace (c / 4096) with (c / 16 / 16 / 16) by (rewrite !N.Div0.div_div; reflexivity).
  assert (c / 16 / 16 / 16 < 16).
  { rewrite !N.Div0.div_div. apply N.Div0.div_lt_upper_bound. exact H. }
  rewrite (N.mod_small (c / 16 / 16 / 16) 16) by assumption.
  lia.
Qed.

Lemma parse_string_chars_unicode (h1 h2 h3 h4 : N) (tail : jsstring) :
  parse_string_chars (92 :: 117 :: h1 :: h2 :: h3 :: h4 :: tail) =
  match hex4 h1 h2 h3 h4 with
  | Some u => cons_char u (parse_string_chars tail)
  | None => None
  end.
Proof. reflexivity. Qed.

Lemma parse_unicode_escape (c : N) (tail : jsstring) :
  c < 65536 ->
  parse_string_chars (unicode_escape c ++ tail) = cons_char c (parse_string_chars tail).
Proof.
  intro H. unfold unicode_escape. cbn [app].
  rewrite parse_string_chars_unicode, hex4_unicode_escape by exact H. reflexivity.
Qed.

(** A character that stands for itself between the quotes. *)
Lemma parse_verbatim (c : N) (tail : jsstring) :
  c <> 34 -> c <> 92 -> 32 <= c ->
  parse_string_chars (c :: tail) = cons_char c (parse_string_chars tail).
Proof.
  intros H1 H2 H3. cbn [parse_string_chars].
  destruct (N.eqb_spec c 34) as [|_]; [contradiction|].
  destruct (N.eqb_spec c 92) as [|_]; [contradiction|].
  destruct (N.ltb_spec c 32) as [|_]; [lia | reflexivity].
Qed.

Lemma surrogate_bounds (c : N) :
  is_lead c || is_trail c = true -> 55296 <= c <= 57343.
Proof.
  unfold is_lead, is_trail. intro H.
  apply orb_true_iff in H. destruct H as [H|H];
    apply andb_true_iff in H; destruct H as [H1 H2];
    apply N.leb_le in H1, H2; lia.
Qed.

Lemma parse_quote_char (c : N) (tail : jsstring) :
  parse_string_chars (quote_char c ++ tail) = cons_char c (parse_string_chars tail).
Proof.
  unfold quote_char.
  destruct (N.eqb_spec c 8) as [->|?]; [reflexivity|].
  destruct (N.eqb_spec c 9) as [->|?]; [reflexivity|].
  destruct (N.eqb_spec c 10) as [->|?]; [reflexivity|].
  destruct (N.eqb_spec c 12) as [->|?]; [reflexivity|].
  destruct (N.eqb_spec c 13) as [->|?]; [reflexivity|].
  destruct (N.eqb_spec c 34) as [->|?]; [reflexivity|].
  destruct (N.eqb_spec c 92) as [->|?]; [reflexivity|].
  destruct (N.ltb_spec c 32) as [Hlt|Hge]; cbn [orb].
  - apply parse_unicode_escape. lia.
  - destruct (is_lead c || is_trail c) eqn:Hs.
    + apply parse_unicode_escape. apply surrogate_bounds in Hs. lia.
    + apply parse_verbatim; assumption.
Qed.

(** What [quote_chars] writes is read back up to the closing quote. *)
Lemma parse_quote_chars (s : jsstring) : forall rest,
  parse_string_chars (quote_chars s ++ 34 :: rest) = Some (s, rest).
Proof.
  assert (G : forall n s, (List.length s <= n)%nat -> forall rest,
              parse_string_chars (quote_chars s ++ 34 :: rest) = Some (s, rest)).
  { induction n as [|n IH]; intros [|c r] Hlen rest; try reflexivity.
    - simpl in Hlen. lia.
    - assert (Hr : forall rest', parse_string_chars (quote_chars r ++ 34 :: rest') =
                                 Some (r, rest')).
      { apply IH. simpl in Hlen. lia. }
      cbn [quote_chars]. destruct (is_lead c) eqn:Hc.
      + assert (Hb : 55296 <= c <= 57343).
        { apply surrogate_bounds. rewrite Hc. reflexivity. }
        destruct r as [|d r'].
        * rewrite parse_unicode_escape by lia. reflexivity.
        * destruct (is_trail d) eqn:Hd.
          -- assert (Hdb : 55296 <= d <= 57343).
             { apply surrogate_bounds. rewrite Hd. apply orb_true_r. }
             cbn [app]. rewrite !parse_verbatim by lia.
             rewrite IH by (simpl in Hlen; lia). reflexivity.
          -- rewrite <- app_assoc, parse_unicode_escape by lia.
             rewrite Hr. reflexivity.
      + rewrite <- app_assoc, parse_quote_char, Hr. reflexivity. }
  intro rest. apply (G (List.length s)). apply Nat.le_refl.
Qed.

Lemma parse_quote (s rest : jsstring) :
  exists body, quote s ++ rest = 34 :: body /\
               parse_string_chars body = Some (s, rest).
Proof.
  exists (quote_chars s ++ 34 :: rest). split.
  - unfold quote. cbn [app]. rewrite <- app_assoc. reflexivity.
  - apply parse_quote_chars.
Qed.

End QuoteFacts.

(** ** The recursion budget of [JSON.parse] is never spent *)

Section ParseFuel.

Import JS.

Local Open Scope nat_scope.

Lemma consumes_longer {A : Type} (s s' : jsstring) (res : parsed A) :
  List.length s' <= List.length s -> consumes s' res -> consumes s res.
Proof. destruct res; simpl; intros; try assumption. lia. Qed.

Lemma skip_ws_length (s : jsstring) : List.length (skip_ws s) <= List.length s.
Proof.
  induction s as [|c r IH]; simpl; [apply Nat.le_refl|].
  destruct (is_ws c); simpl; lia.
Qed.

Lemma span_digits_length (s : jsstring) :
  List.length (snd (span_digits s)) <= List.length s.
Proof.
  induction s as [|c r IH]; simpl; [apply Nat.le_refl|].
  destruct (is_digit c); [|simpl; lia].
  destruct (span_digits r) as [ds r']. simpl in *. lia.
Qed.

Lemma parse_int_length (s ip r : jsstring) :
  parse_int s = Some (ip, r) -> List.length r < List.length s.
Proof.
  destruct s as [|c s]; simpl; [discriminate|].
  destruct (N.eqb c 48).
  - intro H. injection H as _ <-. lia.
  - destruct (is_digit c); [|discriminate].
    pose proof (span_digits_length s) as L.
    destruct (span_digits s) as [ds r']. intro H. injection H as _ <-. simpl in L. lia.
Qed.

Lemma parse_frac_length (s fp r : jsstring) :
  parse_frac s = Some (fp, r) -> List.length r <= List.length s.
Proof.
  destruct s as [|c s]; simpl.
  - intro H. injection H as _ <-. apply Nat.le_refl.
  - destruct (N.eqb c 46).
    + pose proof (span_digits_length s) as L.
      destruct (span_digits s) as [[|d ds] r']; [discriminate|].
      intro H. injection H as _ <-. simpl in L. lia.
    + intro H. injection H as _ <-. apply Nat.le_refl.
Qed.

Lemma parse_exp_length (s ep r : jsstring) :
  parse_exp s = Some (ep, r) -> List.length r <= List.length s.
Proof.
  destruct s as [|c s]; simpl.
  - intro H. injection H as _ <-. apply Nat.le_refl.
  - destruct (N.eqb c 101 || N.eqb c 69).
    + destruct s as [|d s0].
      * simpl. discriminate.
      * destruct (N.eqb d 43 || N.eqb d 45).
        -- pose proof (span_digits_length s0) as L.
           destruct (span_digits s0) as [[|x ds] r']; [discriminate|].
           intro H. injection H as _ <-. simpl in L |- *. lia.
        -- pose proof (span_digits_length (d :: s0)) as L.
           destruct (span_digits (d :: s0)) as [[|x ds] r']; [discriminate|].
           intro H. injection H as _ <-. simpl in L |- *. lia.
    + intro H. injection H as _ <-. apply Nat.le_refl.
Qed.

Lemma parse_unsigned_consumes (neg : bool) (s : jsstring) :
  consumes s (parse_unsigned neg s).
Proof.
  unfold parse_unsigned.
  destruct (parse_int s) as [[ip s2]|] eqn:E1; [|exact I].
  destruct (parse_frac s2) as [[fp s3]|] eqn:E2; [|exact I].
  destruct (parse_exp s3) as [[ep s4]|] eqn:E3; [|exact I].
  apply parse_int_length in E1. apply parse_frac_length in E2.
  apply parse_exp_length in E3.
  destruct fp, ep; simpl; lia.
Qed.

Lemma parse_number_consumes (s : jsstring) : consumes s (parse_number s).
Proof.
  destruct s as [|c r]; [exact I|]. cbn [parse_number].
  destruct (N.eqb c 45).
  - apply consumes_longer with r; [simpl; lia | apply parse_unsigned_consumes].
  - apply parse_unsigned_consumes.
Qed.

Lemma strip_prefix_length (w s r : jsstring) :
  strip_prefix w s = Some r -> List.length r + List.length w = List.length s.
Proof.
  revert s. induction w as [|x w IH]; intros [|y s]; simpl; try discriminate.
  - intro H. injection H as <-. reflexivity.
  - intro H. injection H as <-. simpl. lia.
  - destruct (N.eqb x y); [|discriminate]. intro H. apply IH in H. lia.
Qed.

Lemma parse_literal_consumes (w : string) (v : jsvalue) (s : jsstring) :
  w <> EmptyString -> consumes s (parse_literal w v s).
Proof.
  intro Hw. unfold parse_literal.
  destruct (strip_prefix (lit w) s) as [r|] eqn:E; [|exact I].
  apply strip_prefix_length in E. simpl.
  destruct w as [|a w]; [congruence|]. simpl in E. lia.
Qed.

Lemma parse_string_chars_length (s : jsstring) : forall str r,
  parse_string_chars s = Some (str, r) -> List.length r < List.length s.
Proof.
  assert (G : forall n s, List.length s <= n -> forall str r,
              parse_string_chars s = Some (str, r) -> List.length r < List.length s).
  { assert (K : forall (u : N) (t : jsstring) str r (m : nat),
                (forall str' r', parse_string_chars t = Some (str', r') ->
                                 List.length r' < List.length t) ->
                List.length t < m ->
                cons_char u (parse_string_chars t) = Some (str, r) ->
                List.length r < m).
    { intros u t str r m Ht Hm H.
      destruct (parse_string_chars t) as [[str' r']|]; [|discriminate].
      injection H as _ <-. specialize (Ht _ _ eq_refl). lia. }
    induction n as [|n IH]; intros [|c t] Hlen str r; try discriminate.
    - simpl in Hlen. lia.
    - simpl in Hlen. cbn [parse_string_chars].
      destruct (N.eqb c 34).
      { intro H. injection H as _ <-. simpl. lia. }
      destruct (N.eqb c 92).
      + destruct t as [|e t']; [discriminate|].
        destruct (N.eqb e 117).
        * destruct t' as [|h1 [|h2 [|h3 [|h4 t'']]]]; try discriminate.
          destruct (hex4 h1 h2 h3 h4); [|discriminate].
          apply K; [apply IH; simpl in Hlen; lia | simpl; lia].
        * destruct (unescape e); [|discriminate].
          apply K; [apply IH; simpl in Hlen; lia | simpl; lia].
      + destruct (N.ltb c 32); [discriminate|].
        apply K; [apply IH; lia | simpl; lia]. }
  intros str r. apply (G (List.length s)). apply Nat.le_refl.
Qed.

Lemma skip_ws_cons_length (s : jsstring) (c : N) (r : jsstring) :
  skip_ws s = c :: r -> List.length r < List.length s.
Proof.
  intro H. pose proof (skip_ws_length s) as L. rewrite H in L. simpl in L. lia.
Qed.

(** With a budget above twice the length of the text, a value, the
    elements of an array and the members of an object are parsed to the end
    or rejected. *)
Lemma parse_consumes (fuel : nat) :
  (forall s, 2 * List.length s < fuel -> consumes s (parse_value fuel s)) /\
  (forall s acc, 2 * List.length s + 1 < fuel -> consumes s (parse_elements fuel acc s)) /\
  (forall s acc, 2 * List.length s + 1 < fuel -> consumes s (parse_members fuel acc s)).
Proof.
  induction fuel as [|fuel (IHv & IHe & IHm)].
  - repeat split; intros; lia.
  - split; [|split].
    + intros s Hs. cbn [parse_value].
      destruct (skip_ws s) as [|c r] eqn:Es; [exact I|].
      pose proof (skip_ws_length s) as Ls. rewrite Es in Ls.
      apply skip_ws_cons_length in Es.
      destruct (N.eqb c 91).
      { destruct (skip_ws r) as [|c' r'] eqn:Er; [exact I|].
        apply skip_ws_cons_length in Er.
        destruct (N.eqb c' 93); [simpl; lia|].
        apply consumes_longer with r; [lia | apply IHe; lia]. }
      destruct (N.eqb c 123).
      { destruct (skip_ws r) as [|c' r'] eqn:Er; [exact I|].
        apply skip_ws_cons_length in Er.
        destruct (N.eqb c' 125); [simpl; lia|].
        apply consumes_longer with r; [lia | apply IHm; lia]. }
      destruct (N.eqb c 34).
      { destruct (parse_string_chars r) as [[str r']|] eqn:Er; [|exact I].
        apply parse_string_chars_length in Er. simpl. lia. }
      destruct (N.eqb c 116).
      { apply consumes_longer with (c :: r); [exact Ls|].
        apply parse_literal_consumes. discriminate. }
      destruct (N.eqb c 102).
      { apply consumes_longer with (c :: r); [exact Ls|].
        apply parse_literal_consumes. discriminate. }
      destruct (N.eqb c 110).
      { apply consumes_longer with (c :: r); [exact Ls|].
        apply parse_literal_consumes. discriminate. }
      apply consumes_longer with (c :: r); [exact Ls | apply parse_number_consumes].
    + intros s acc Hs. cbn [parse_elements].
      pose proof (IHv s ltac:(lia)) as Hv.
      destruct (parse_value fuel s) as [v r| |]; [|exact I|exact Hv].
      simpl in Hv.
      destruct (skip_ws r) as [|c r'] eqn:Er; [exact I|].
      apply skip_ws_cons_length in Er.
      destruct (N.eqb c 44).
      { apply consumes_longer with r'; [lia | apply IHe; lia]. }
      destruct (N.eqb c 93); [simpl; lia | exact I].
    + intros s acc Hs. cbn [parse_members].
      destruct (skip_ws s) as [|c r] eqn:Es; [exact I|].
      apply skip_ws_cons_length in Es.
      destruct (N.eqb c 34); [|exact I].
      destruct (parse_string_chars r) as [[k r1]|] eqn:Er; [|exact I].
      apply parse_string_chars_length in Er.
      destruct (skip_ws r1) as [|c1 r2] eqn:Er1; [exact I|].
      apply skip_ws_cons_length in Er1.
      destruct (N.eqb c1 58); [|exact I].
      pose proof (IHv r2 ltac:(lia)) as Hv.
      destruct (parse_value fuel r2) as [v r3| |]; [|exact I|exact Hv].
      simpl in Hv.
      destruct (skip_ws r3) as [|c3 r4] eqn:Er3; [exact I|].
      apply skip_ws_cons_length in Er3.
      destruct (N.eqb c3 44).
      { apply consumes_longer with r4; [lia | apply IHm; lia]. }
      destruct (N.eqb c3 125); [simpl; lia | exact I].
Qed.

(** The budget [JSON.parse] starts with is enough: a text is parsed or
    rejected as malformed. *)
Theorem parse_value_fuel (text : jsstring) :
  parse_value (2 * List.length text + 1) text <> OutOfFuel.
Proof.
  pose proof (proj1 (parse_consumes (2 * List.length text + 1)) text) as H.
  intro E. rewrite E in H. apply H. lia.
Qed.

End ParseFuel.

(** ** Reading back what [JSON.stringify] writes for a cart *)

Section CartJson.

Import JS Cart.

Local Open Scope N_scope.

(** A string value, with any text after it. *)
Lemma parse_value_quote (fuel : nat) (s rest : jsstring) :
  parse_value (S fuel) (quote s ++ rest) = Parsed (JStr s) rest.
Proof.
  destruct (parse_quote s rest) as (body & -> & Hbody).
  cbn. rewrite Hbody. reflexivity.
Qed.

Lemma parse_value_number_head (fuel : nat) (c : N) (tl : jsstring) :
  c = 45 \/ 48 <= c <= 57 ->
  parse_value (S fuel) (c :: tl) = parse_number (c :: tl).
Proof.
  intro Hc. cbn [parse_value skip_ws].
  assert (W : is_ws c = false).
  { unfold is_ws.
    destruct (N.eqb_spec c 32), (N.eqb_spec c 9), (N.eqb_spec c 10), (N.eqb_spec c 13);
      try reflexivity; lia. }
  rewrite W.
  destruct (N.eqb_spec c 91); [lia|]. destruct (N.eqb_spec c 123); [lia|].
  destruct (N.eqb_spec c 34); [lia|]. destruct (N.eqb_spec c 116); [lia|].
  destruct (N.eqb_spec c 102); [lia|]. destruct (N.eqb_spec c 110); [lia|].
  reflexivity.
Qed.

(** An integer value, followed by text that ends the token. *)
Lemma parse_value_number (fuel : nat) (z : Z) (rest : jsstring) :
  ends_number rest = true ->
  parse_value (S fuel) (number_to_string z ++ rest) = Parsed (JNum z) rest.
Proof.
  intro Hrest. rewrite <- (parse_number_to_string z rest Hrest).
  destruct (number_to_string_head z) as (c & tl & E & Hc). rewrite E.
  apply parse_value_number_head. exact Hc.
Qed.

(** One member of an object, followed by a comma. *)
Lemma parse_members_comma (fuel : nat) (acc : list (jsstring * jsvalue))
  (k : jsstring) (v : jsvalue) (rest : jsstring) :
  parse_value fuel (stringify v ++ 44 :: rest) = Parsed v (44 :: rest) ->
  parse_members (S fuel) acc (quote k ++ 58 :: stringify v ++ 44 :: rest) =
  parse_members fuel ((k, v) :: acc) rest.
Proof.
  intro Hv. destruct (parse_quote k (58 :: stringify v ++ 44 :: rest)) as (body & -> & Hbody).
  cbn [parse_members skip_ws]. change (is_ws 34) with false. cbv iota.
  rewrite N.eqb_refl, Hbody. cbn [skip_ws]. change (is_ws 58) with false. cbv iota.
  rewrite N.eqb_refl, Hv. reflexivity.
Qed.

(** The last member of an object, followed by the closing brace. *)
Lemma parse_members_close (fuel : nat) (acc : list (jsstring * jsvalue))
  (k : jsstring) (v : jsvalue) (rest : jsstring) :
  parse_value fuel (stringify v ++ 125 :: rest) = Parsed v (125 :: rest) ->
  parse_members (S fuel) acc (quote k ++ 58 :: stringify v ++ 125 :: rest) =
  Parsed (JObj (rev ((k, v) :: acc))) rest.
Proof.
  intro Hv. destruct (parse_quote k (58 :: stringify v ++ 125 :: rest)) as (body & -> & Hbody).
  cbn [parse_members skip_ws]. change (is_ws 34) with false. cbv iota.
  rewrite N.eqb_refl, Hbody. cbn [skip_ws]. change (is_ws 58) with false. cbv iota.
  rewrite N.eqb_refl, Hv. reflexivity.
Qed.

(** An object that has a first member. *)
Lemma parse_value_members (fuel : nat) (k tail : jsstring) :
  parse_value (S fuel) (123 :: quote k ++ tail) = parse_members fuel [] (quote k ++ tail).
Proof. reflexivity. Qed.

(** The text of an entry, with the members spelled out. *)
Lemma stringify_entry (item : CartItem.t) (rest : jsstring) :
  stringify (CartItem.to_js item) ++ rest =
  123 :: quote (lit "productId") ++ 58 :: stringify (JStr (CartItem.productId item)) ++
  44 :: quote (lit "title") ++ 58 :: stringify (JStr (CartItem.title item)) ++
  44 :: quote (lit "price") ++ 58 :: stringify (JNum (CartItem.price item)) ++
  44 :: quote (lit "imageUrl") ++ 58 :: stringify (JStr (CartItem.imageUrl item)) ++
  44 :: quote (lit "quantity") ++ 58 :: stringify (JNum (CartItem.quantity item)) ++
  125 :: rest.
Proof.
  unfold CartItem.to_js. cbn [stringify map join_comma fst snd app].
  repeat (rewrite <- ?app_assoc; cbn [app]; f_equal).
Qed.

(** An entry is read back, whatever follows it. *)
Lemma parse_value_entry (fuel : nat) (item : CartItem.t) (rest : jsstring) :
  (7 <= fuel)%nat ->
  parse_value fuel (stringify (CartItem.to_js item) ++ rest) =
  Parsed (CartItem.to_js item) rest.
Proof.
  intro Hfuel. do 7 (destruct fuel as [|fuel]; [lia|]). clear Hfuel.
  rewrite stringify_entry.
  rewrite parse_value_members.
  rewrite parse_members_comma by apply parse_value_quote.
  rewrite parse_members_comma by apply parse_value_quote.
  rewrite parse_members_comma by (apply parse_value_number; reflexivity).
  rewrite parse_members_comma by apply parse_value_quote.
  rewrite parse_members_close by (apply parse_value_number; reflexivity).
  reflexivity.
Qed.

Lemma length_stringify_entry (item : CartItem.t) :
  (2 <= List.length (stringify (CartItem.to_js item)))%nat.
Proof.
  unfold CartItem.to_js. cbn [stringify]. cbn [List.length].
  rewrite length_app. cbn [List.length]. lia.
Qed.

Lemma length_join_entries (l : list CartItem.t) :
  (2 * List.length l <=
   List.length (join_comma (map stringify (map CartItem.to_js l))))%nat.
Proof.
  induction l as [|i [|j l] IH].
  - apply Nat.le_refl.
  - cbn [map join_comma]. pose proof (length_stringify_entry i). simpl List.length. lia.
  - change (join_comma (map stringify (map CartItem.to_js (i :: j :: l))))
      with (stringify (CartItem.to_js i) ++
            44 :: join_comma (map stringify (map CartItem.to_js (j :: l)))).
    rewrite length_app. pose proof (length_stringify_entry i).
    cbn [List.length] in IH |- *. lia.
Qed.

(** The entries of an array, the first of them onwards, up to the closing
    bracket. *)
Lemma parse_elements_entries (l : list CartItem.t) :
  forall (i : CartItem.t) (acc : list jsvalue) (fuel : nat) (rest : jsstring),
  (List.length l + 8 <= fuel)%nat ->
  parse_elements fuel acc
    (join_comma (map stringify (map CartItem.to_js (i :: l))) ++ 93 :: rest) =
  Parsed (JArr (rev acc ++ map CartItem.to_js (i :: l))) rest.
Proof.
  induction l as [|j l IH]; intros i acc fuel rest Hfuel;
    (destruct fuel as [|fuel]; [lia|]).
  - cbn [map join_comma parse_elements].
    rewrite parse_value_entry by (simpl in Hfuel; lia).
    reflexivity.
  - change (join_comma (map stringify (map CartItem.to_js (i :: j :: l))))
      with (stringify (CartItem.to_js i) ++
            44 :: join_comma (map stringify (map CartItem.to_js (j :: l)))).
    rewrite <- app_assoc. cbn [app parse_elements].
    rewrite parse_value_entry by (simpl in Hfuel; lia).
    cbn [skip_ws]. change (is_ws 44) with false. cbv iota. rewrite N.eqb_refl.
    rewrite IH by (simpl in Hfuel; lia).
    cbn [rev map]. rewrite <- app_assoc. reflexivity.
Qed.

(** [JSON.parse(JSON.stringify(items))] is [items]. *)
Theorem parse_stringify_items (l : list CartItem.t) :
  parse (stringify (items_to_js l)) = Normal (items_to_js l).
Proof.
  destruct l as [|i l]; [reflexivity|].
  unfold parse, items_to_js. cbn [stringify].
  set (body := join_comma (map stringify (map CartItem.to_js (i :: l)))).
  assert (Hlen : (2 * List.length (i :: l) <= List.length body)%nat)
    by apply length_join_entries.
  assert (Hhead : exists tl, body ++ [93] = 123 :: tl).
  { unfold body. destruct l; eexists; reflexivity. }
  cbn [List.length]. rewrite length_app. cbn [List.length].
  replace (2 * S (List.length body + 1) + 1)%nat
    with (S (2 * S (List.length body + 1)))%nat by lia.
  cbn [parse_value skip_ws]. change (is_ws 91) with false. cbv iota.
  rewrite N.eqb_refl. destruct Hhead as (tl & Ehead).
  rewrite Ehead. cbn [skip_ws]. change (is_ws 123) with false. cbv iota.
  change (123 =? 93) with false. cbv iota. rewrite <- Ehead.
  unfold body in *. rewrite parse_elements_entries by (cbn [List.length] in Hlen; lia).
  reflexivity.
Qed.

End CartJson.

(** ** The cart store *)

Section CartFacts.

Import JS Cart.

Local Open Scope Z_scope.


(** [setItems] installs what the updater returns. *)
Lemma items_setItems updater s : items (setItems updater s) = snd (updater (items s)).
Proof. unfold setItems. destruct (updater (items s)); reflexivity. Qed.

Lemma toasts_setItems updater s :
  toasts (setItems updater s) = toasts s ++ fst (updater (items s)).
Proof. unfold setItems. destruct (updater (items s)); reflexivity. Qed.

Lemma find_none_map_id (id : jsstring) (f : CartItem.t -> CartItem.t) (l : list CartItem.t) :
  find (has_id id) l = None ->
  map (fun item => if has_id id item then f item else item) l = l.
Proof.
  induction l as [|x l IH]; simpl; [reflexivity|].
  destruct (has_id id x) eqn:E; [discriminate|].
  intro H. rewrite IH by assumption. reflexivity.
Qed.

Lemma find_none_filter (id : jsstring) (l : list CartItem.t) :
  find (has_id id) l = None ->
  filter (fun item => negb (has_id id item)) l = l.
Proof.
  induction l as [|x l IH]; simpl; [reflexivity|].
  destruct (has_id id x) eqn:E; [discriminate|].
  intro H. simpl. rewrite IH by assumption. reflexivity.
Qed.



Lemma has_id_entry p q : has_id (Product.id p) (entry p q) = true.
Proof. apply str_eqb_refl. Qed.



Lemma run_cons c cs s : run (c :: cs) s = run cs (call c s).
Proof. reflexivity. Qed.



(** C3.  [updateQuantity(id, q)] with [q < 1] leaves the store in the state
    [removeFromCart(id)] leaves it in: same entries, same toasts, same
    persisted copy. *)
Theorem updateQuantity_below_one_is_remove (s : CartState) (id : jsstring) (q : Z) :
  q < 1 -> updateQuantity id q s = removeFromCart id s.
Proof.
  intro H. unfold updateQuantity.
  destruct (Z.ltb_spec q 1) as [_|Hge]; [reflexivity | lia].
Qed.


Lemma find_none_iff (id : jsstring) (l : list CartItem.t) :
  find (has_id id) l = None <-> (forall e, In e l -> CartItem.productId e <> id).
Proof.
  split.
  - intros H e He Heq.
    apply (find_none _ _ H) in He. unfold has_id in He.
    rewrite Heq, str_eqb_refl in He. discriminate.
  - intro H. induction l as [|x l IH]; simpl; [reflexivity|].
    unfold has_id at 1. rewrite str_eqb_neq by (apply H; left; reflexivity).
    apply IH. intros e He. apply H. right. exact He.
Qed.

Lemma items_removeFromCart id s :
  items (removeFromCart id s) = filter (fun i => negb (has_id id i)) (items s).
Proof. unfold removeFromCart. rewrite items_setItems. reflexivity. Qed.

(** C9.  [removeFromCart(id)] on a cart with no entry of that id changes
    neither the entries nor the toasts.  On a cart where [item] is the
    first entry of that id, the entries that remain are those of another
    id, in their order, and one toast carrying the title of [item] is
    raised. *)
Theorem removeFromCart_frame (s : CartState) (id : jsstring) :
  ((forall e, In e (items s) -> CartItem.productId e <> id) ->
   items (removeFromCart id s) = items s /\
   toasts (removeFromCart id s) = toasts s) /\
  (forall item, find (has_id id) (items s) = Some item ->
   In item (items s) /\ CartItem.productId item = id /\
   (forall e, In e (items (removeFromCart id s)) <->
              In e (items s) /\ CartItem.productId e <> id) /\
   items (removeFromCart id s) = filter (fun i => negb (has_id id i)) (items s) /\
   toasts (removeFromCart id s) = toasts s ++ [removed_toast item]).
Proof.
  split.
  - intro Habs. apply find_none_iff in Habs. split.
    + rewrite items_removeFromCart. apply find_none_filter. exact Habs.
    + unfold removeFromCart. rewrite toasts_setItems.
      unfold removeFromCart_updater, array_find. fold (has_id id).
      rewrite Habs. simpl. apply app_nil_r.
  - intros item Hfind.
    destruct (find_some _ _ Hfind) as [Hin Hid].
    split; [exact Hin|]. split.
    { unfold has_id in Hid. destruct (str_eqb_spec (CartItem.productId item) id);
        [assumption | discriminate]. }
    split.
    { intro e. rewrite items_removeFromCart, filter_In. unfold has_id.
      destruct (str_eqb_spec (CartItem.productId e) id); simpl; intuition congruence. }
    split; [apply items_removeFromCart|].
    unfold removeFromCart. rewrite toasts_setItems.
    unfold removeFromCart_updater, array_find. fold (has_id id).
    rewrite Hfind. reflexivity.
Qed.




(** *** One entry per product id *)

Lemma map_productId_with_quantity (id : jsstring) (f : CartItem.t -> Z) (l : list CartItem.t) :
  map CartItem.productId
      (map (fun item => if str_eqb (CartItem.productId item) id
                        then CartItem.with_quantity item (f item) else item) l) =
  map CartItem.productId l.
Proof.
  rewrite map_map. apply map_ext. intro item.
  destruct (str_eqb (CartItem.productId item) id); reflexivity.
Qed.

Lemma NoDup_map_filter (f : CartItem.t -> bool) (l : list CartItem.t) :
  NoDup (map CartItem.productId l) -> NoDup (map CartItem.productId (filter f l)).
Proof.
  induction l as [|x l IH]; simpl; intro H; [constructor|].
  inversion H as [|? ? Hx Hl]; subst.
  destruct (f x); simpl; [|apply IH, Hl].
  constructor; [|apply IH, Hl].
  intro Hin. apply Hx. apply in_map_iff in Hin. destruct Hin as (y & Hy & Hyin).
  apply in_map_iff. exists y. split; [exact Hy|].
  apply filter_In in Hyin. apply Hyin.
Qed.

Lemma call_keeps_ids_distinct (c : Call) (s : CartState) :
  NoDup (map CartItem.productId (items s)) ->
  NoDup (map CartItem.productId (items (call c s))).
Proof.
  intro Hs. destruct c as [p q | id | id q | ]; cbn [call].
  - unfold addToCart. rewrite items_setItems. unfold addToCart_updater, array_find, array_map.
    fold (has_id (Product.id p)).
    destruct (find (has_id (Product.id p)) (items s)) as [existing|] eqn:E; cbn [snd].
    + rewrite (map_productId_with_quantity (Product.id p)
                 (fun item => CartItem.quantity item + nullish q 1)). exact Hs.
    + rewrite map_app. cbn [map CartItem.productId].
      apply NoDup_app; [exact Hs | constructor; [intros [] | constructor] |].
      intros id Hin [<-|[]]. apply in_map_iff in Hin. destruct Hin as (e & He & Hein).
      apply (proj1 (find_none_iff _ _) E e Hein). exact He.
  - rewrite items_removeFromCart. apply NoDup_map_filter, Hs.
  - unfold updateQuantity. destruct (q <? 1).
    + rewrite items_removeFromCart. apply NoDup_map_filter, Hs.
    + rewrite items_setItems. cbn [snd]. unfold array_map.
      rewrite (map_productId_with_quantity id (fun _ => q)). exact Hs.
  - constructor.
Qed.

(** X1.  The uniqueness invariant of the cart: no two entries of a state
    reached from the empty cart by the four operations carry the same
    product id. *)
Lemma ids_stay_distinct (cs : list Call) :
  NoDup (map CartItem.productId (items (run cs emptyCart))).
Proof.
  assert (G : forall s, NoDup (map CartItem.productId (items s)) ->
                        NoDup (map CartItem.productId (items (run cs s)))).
  { induction cs as [|c cs IH]; intros s Hs; [exact Hs|].
    rewrite run_cons. apply IH, call_keeps_ids_distinct, Hs. }
  apply G. constructor.
Qed.


(** *** Persistence *)

Lemma getItem_setItem (st : Storage) (key value : jsstring) :
  getItem (setItem st key value) key = Some value.
Proof.
  induction st as [|[k v] st IH]; simpl.
  - rewrite str_eqb_refl. reflexivity.
  - destruct (str_eqb k key) eqn:E; simpl; rewrite E; [reflexivity | exact IH].
Qed.

Lemma persist_in_sync (s : CartState) : in_sync (persist s).
Proof. unfold in_sync, persist. simpl. apply getItem_setItem. Qed.

Lemma setItems_in_sync updater (s : CartState) : in_sync (setItems updater s).
Proof. unfold setItems. destruct (updater (items s)). apply persist_in_sync. Qed.

(** Every mutating operation ends with the persisted copy rewritten. *)
Lemma call_in_sync (c : Call) (s : CartState) : in_sync (call c s).
Proof.
  destruct c as [p q | id | id q | ]; cbn [call].
  - apply setItems_in_sync.
  - apply setItems_in_sync.
  - unfold updateQuantity. destruct (q <? 1); apply setItems_in_sync.
  - unfold clearCart, toast, in_sync. cbn [items localStorage].
    apply setItems_in_sync.
Qed.

Lemma run_in_sync (cs : list Call) : forall s, in_sync s -> in_sync (run cs s).
Proof.
  induction cs as [|c cs IH]; intros s Hs; [exact Hs|].
  rewrite run_cons. apply IH, call_in_sync.
Qed.



(** A store whose persisted copy is in sync starts again with the same
    entries. *)
Lemma initialItems_in_sync (s : CartState) :
  in_sync s -> initialItems (localStorage s) = Normal (items_to_js (items s)).
Proof.
  unfold in_sync, initialItems. intros ->.
  rewrite parse_stringify_items. reflexivity.
Qed.


(** The same holds of every state reached from the empty cart. *)
Lemma reachable_in_sync (cs : list Call) :
  initialItems (localStorage (run cs emptyCart)) =
  Normal (items_to_js (items (run cs emptyCart))).
Proof. apply initialItems_in_sync, run_in_sync, persist_in_sync. Qed.

(** C8, as the code has it.  A saved text that is not empty and that
    [JSON.parse] rejects makes the initializer throw the [SyntaxError];
    an empty saved text is taken as no saved cart; a saved text that
    [JSON.parse] accepts becomes the entries as it is. *)
Theorem initialItems_saved_text (st : Storage) (saved : jsstring) :
  getItem st (lit "cart") = Some saved ->
  (saved <> [] -> parse saved = Throw SyntaxError ->
   initialItems st = Throw SyntaxError) /\
  (saved = [] -> initialItems st = Normal (JArr [])) /\
  (forall v, saved <> [] -> parse saved = Normal v -> initialItems st = Normal v).
Proof.
  intro Hsaved. unfold initialItems. rewrite Hsaved.
  destruct saved as [|c r]; simpl truthy_string; cbv iota.
  - split; [congruence|]. split; [reflexivity | congruence].
  - split; [intros _ H; exact H|]. split; [discriminate | intros v _ H; exact H].
Qed.

End CartFacts.

(** ** The session store *)

Section AuthFacts.

Import JS Supabase Auth.

(** [fetchProfile] returns, whatever the backend answers. *)
Lemma fetchProfile_returns (B : Backend) (uid : option jsstring) (s : AuthState) :
  exists s', fetchProfile B uid s = (s', Normal tt) /\
             isLoading s' = isLoading s /\ toasts s' = toasts s.
Proof.
  unfold fetchProfile.
  destruct uid as [u|]; [|eexists; repeat split].
  destruct (falsy_uid (Some u)); [eexists; repeat split|].
  unfold try_catch, bind, await.
  destruct (getSession B) as [sr|e]; simpl; [|eexists; repeat split].
  destruct (selectProfile B u) as [r|e]; simpl; [|eexists; repeat split].
  destruct (select_error r) as [err|]; simpl.
  - destruct (is_other_error err); simpl; [eexists; repeat split|].
    destruct (select_data r); simpl; eexists; repeat split.
  - destruct (select_data r); simpl; eexists; repeat split.
Qed.

(** When no row matches, [fetchProfile] leaves no identity; with a session
    at hand nothing is logged. *)
Lemma fetchProfile_row_not_found (B : Backend) (u : jsstring) (r : SelectResponse)
  (s : AuthState) :
  selectProfile B u = Fulfilled r -> row_not_found r ->
  exists s', fetchProfile B (Some u) s = (s', Normal tt) /\
             user s' = None /\ isLoading s' = isLoading s /\ toasts s' = toasts s /\
             (forall sr, getSession B = Fulfilled sr -> console s' = console s).
Proof.
  intros Hsel (Hdata & e & Herr & Hcode).
  unfold fetchProfile.
  destruct (falsy_uid (Some u)).
  { eexists. repeat split. }
  unfold try_catch, bind, await.
  destruct (getSession B) as [sr|e0]; simpl.
  - rewrite Hsel. simpl. rewrite Herr. unfold is_other_error. rewrite Hcode.
    assert (E : str_eqb PGRST116 PGRST116 = true) by reflexivity.
    rewrite E. simpl. rewrite Hdata. simpl. eexists. repeat split.
  - eexists. repeat split. intros sr H. discriminate.
Qed.

(** C6.  When the credential check fails, [signIn] returns [false], the
    identity is the one held before (so [null] stays [null]), the loading
    flag is off, and one "Sign in failed" toast is raised, carrying the
    message of the error or "Invalid credentials".  Whatever the backend
    answers, [signIn] returns a boolean and raises one toast: it never
    throws. *)
Theorem signIn_failure_is_caught (B : Backend) (email password : jsstring) (s : AuthState) :
  (forall err, credential_error B email password = Some err ->
     snd (signIn B email password s) = Normal false /\
     user (fst (signIn B email password s)) = user s /\
     isLoading (fst (signIn B email password s)) = false /\
     toasts (fst (signIn B email password s)) = toasts s ++ [sign_in_failed_toast err]) /\
  (exists b t, snd (signIn B email password s) = Normal b /\
               toasts (fst (signIn B email password s)) = toasts s ++ [t]).
Proof.
  unfold credential_error, signIn, try_catch_finally, try_catch, bind, await.
  destruct (signInWithPassword B email password) as [r|e]; simpl.
  - destruct (signin_error r) as [error|]; simpl.
    + split; [|eexists _, _; split; reflexivity].
      intros err H. injection H as <-. repeat split.
    + split; [discriminate|].
      destruct (fetchProfile_returns B (option_map user_id (signin_user r))
                  (mkState (user s) true (toasts s) (console s))) as (s' & -> & _ & Ht).
      simpl. rewrite Ht. simpl. eexists _, _; split; reflexivity.
  - split; [|eexists _, _; split; reflexivity].
    intros err H. injection H as <-. repeat split.
Qed.

(** C7.  The credential check succeeds for a user whose profile query
    answers that no row matches: [signIn] returns [true], the identity is
    [null], the "Signed in" toast is raised, and with a session at hand the
    lookup logs no error. *)
Theorem signIn_without_profile_row (B : Backend) (email password : jsstring)
  (r : SignInResponse) (au : AuthUser) (sel : SelectResponse) (s : AuthState) :
  signInWithPassword B email password = Fulfilled r ->
  signin_error r = None ->
  signin_user r = Some au ->
  selectProfile B (user_id au) = Fulfilled sel ->
  row_not_found sel ->
  snd (signIn B email password s) = Normal true /\
  user (fst (signIn B email password s)) = None /\
  isLoading (fst (signIn B email password s)) = false /\
  toasts (fst (signIn B email password s)) = toasts s ++ [signed_in_toast] /\
  (forall sr, getSession B = Fulfilled sr ->
              console (fst (signIn B email password s)) = console s).
Proof.
  intros Hin Herr Huser Hsel Hrow.
  unfold signIn, try_catch_finally, try_catch, bind, await.
  rewrite Hin. cbn -[fetchProfile]. rewrite Herr, Huser. cbn -[fetchProfile].
  destruct (fetchProfile_row_not_found B (user_id au) sel
              (mkState (user s) true (toasts s) (console s)) Hsel Hrow)
    as (s' & -> & Hu & _ & Ht & Hc).
  simpl. rewrite Hu, Ht. simpl. repeat split. exact Hc.
Qed.

(** C10.  When the backend sign-out fails, [signOut] leaves the identity as
    it was, raises the "Logout failed" toast and returns; when it succeeds
    the identity is cleared.  In both cases [signOut] returns: it never
    throws. *)
Theorem signOut_failure_keeps_identity (B : Backend) (s : AuthState) :
  (forall err, signout_failure B = Some err ->
     user (fst (Auth.signOut B s)) = user s /\
     isLoading (fst (Auth.signOut B s)) = false /\
     toasts (fst (Auth.signOut B s)) = toasts s ++ [logout_failed_toast]) /\
  (signout_failure B = None ->
     user (fst (Auth.signOut B s)) = None /\
     toasts (fst (Auth.signOut B s)) = toasts s ++ [logged_out_toast]) /\
  snd (Auth.signOut B s) = Normal tt.
Proof.
  unfold signout_failure, Auth.signOut, try_catch_finally, try_catch, bind, await.
  destruct (Supabase.signOut B) as [r|e]; simpl.
  - destruct (signout_error r) as [error|]; simpl.
    + split; [|split; [discriminate | reflexivity]].
      intros err _. repeat split.
    + split; [discriminate|]. split; [|reflexivity]. intros _. split; reflexivity.
  - split; [|split; [discriminate | reflexivity]].
    intros err _. repeat split.
Qed.

End AuthFacts.

(** * Further properties *)

(** ** The cart store *)

Section MoreCartFacts.

Import JS Cart.

Local Open Scope Z_scope.

Lemma find_has_id_cons (id : jsstring) (x : CartItem.t) (l : list CartItem.t) :
  find (has_id id) (x :: l) = if has_id id x then Some x else find (has_id id) l.
Proof. reflexivity. Qed.







Lemma items_addToCart (p : Product.t) (q : option Z) (s : CartState) :
  items (addToCart p q s) =
  match find (has_id (Product.id p)) (items s) with
  | Some _ =>
      map (fun item => if has_id (Product.id p) item
                       then CartItem.with_quantity item (CartItem.quantity item + nullish q 1)
                       else item) (items s)
  | None => items s ++ [entry p (nullish q 1)]
  end.
Proof.
  unfold addToCart. rewrite items_setItems. unfold addToCart_updater, array_find, array_map.
  fold (has_id (Product.id p)). destruct (find (has_id (Product.id p)) (items s)); reflexivity.
Qed.





Lemma items_updateQuantity (id : jsstring) (q : Z) (s : CartState) :
  1 <= q ->
  items (updateQuantity id q s) =
  map (fun item => if has_id id item then CartItem.with_quantity item q else item) (items s).
Proof.
  intro Hq. unfold updateQuantity. destruct (Z.ltb_spec q 1) as [|_]; [lia|].
  rewrite items_setItems. reflexivity.
Qed.

(** X3.  [updateQuantity(id, q)] with [q >= 1] raises no toast and leaves
    the ids of the cart as they are, in their order: it neither adds nor
    removes an entry (no entry is made for an id the cart does not hold).
    Afterwards every entry of that id has quantity [q], and the entries of
    other ids are unchanged. *)
Theorem updateQuantity_sets_in_place (id : jsstring) (q : Z) (s : CartState) :
  1 <= q ->
  toasts (updateQuantity id q s) = toasts s /\
  ids (items (updateQuantity id q s)) = ids (items s) /\
  (forall e, In e (items (updateQuantity id q s)) ->
             CartItem.productId e = id -> CartItem.quantity e = q) /\
  filter (fun i => negb (has_id id i)) (items (updateQuantity id q s)) =
    filter (fun i => negb (has_id id i)) (items s) /\
  (find (has_id id) (items s) = None -> items (updateQuantity id q s) = items s).
Proof.
  intro Hq. split.
  { unfold updateQuantity. destruct (Z.ltb_spec q 1) as [|_]; [lia|].
    rewrite toasts_setItems. apply app_nil_r. }
  rewrite (items_updateQuantity id q s Hq).
  split; [|split; [|split]].
  - unfold ids. rewrite map_map. apply map_ext. intro item.
    destruct (has_id id item); reflexivity.
  - intros e He Hid. apply in_map_iff in He. destruct He as (x & Hx & _).
    destruct (has_id id x) eqn:E; subst e; [reflexivity|].
    unfold has_id in E. rewrite Hid, str_eqb_refl in E. discriminate.
  - induction (items s) as [|x l IH]; [reflexivity|].
    cbn [map filter]. destruct (has_id id x) eqn:E.
    + unfold has_id at 1. cbn [CartItem.with_quantity CartItem.productId].
      fold (has_id id x). rewrite E. exact IH.
    + rewrite E. cbn [negb]. rewrite IH. reflexivity.
  - intro Hnone. apply find_none_map_id. exact Hnone.
Qed.

(** X4.  [removeFromCart] twice is [removeFromCart] once: the second call
    changes no entry and raises no toast. *)
Theorem removeFromCart_twice (id : jsstring) (s : CartState) :
  items (removeFromCart id (removeFromCart id s)) = items (removeFromCart id s) /\
  toasts (removeFromCart id (removeFromCart id s)) = toasts (removeFromCart id s).
Proof.
  assert (Habs : forall e, In e (items (removeFromCart id s)) -> CartItem.productId e <> id).
  { intros e He. rewrite items_removeFromCart in He. apply filter_In in He.
    destruct He as [_ He]. unfold has_id in He.
    destruct (str_eqb_spec (CartItem.productId e) id); [discriminate | assumption]. }
  apply find_none_iff in Habs. split.
  - rewrite (items_removeFromCart id (removeFromCart id s)). apply find_none_filter, Habs.
  - unfold removeFromCart at 1. rewrite toasts_setItems.
    unfold removeFromCart_updater, array_find. fold (has_id id).
    rewrite Habs. apply app_nil_r.
Qed.

(** X5.  Adding a product the cart does not hold and removing its id again
    gives back the entries the cart had. *)
Theorem addToCart_then_removeFromCart (p : Product.t) (q : option Z) (s : CartState) :
  find (has_id (Product.id p)) (items s) = None ->
  items (removeFromCart (Product.id p) (addToCart p q s)) = items s.
Proof.
  intro Hnone. rewrite items_removeFromCart, items_addToCart, Hnone, filter_app.
  rewrite (find_none_filter _ _ Hnone). cbn [filter].
  rewrite has_id_entry. apply app_nil_r.
Qed.

Lemma getItem_setItem_other (st : Storage) (key key' value : jsstring) :
  key' <> key -> getItem (setItem st key value) key' = getItem st key'.
Proof.
  intro Hne. induction st as [|[k v] st IH]; simpl.
  - rewrite str_eqb_neq by congruence. reflexivity.
  - destruct (str_eqb_spec k key) as [->|Hk]; simpl.
    + rewrite !str_eqb_neq by congruence. reflexivity.
    + destruct (str_eqb k key'); [reflexivity | exact IH].
Qed.

Lemma localStorage_setItems updater (s : CartState) :
  localStorage (setItems updater s) =
  setItem (localStorage s) (lit "cart")
          (stringify (items_to_js (snd (updater (items s))))).
Proof. unfold setItems. destruct (updater (items s)). reflexivity. Qed.

(** X8.  [addToCart] raises one toast each time.  For a product the cart
    holds, the quantity the toast announces is the quantity the first entry
    of that product has afterwards. *)
Theorem addToCart_toast_tells_quantity (p : Product.t) (q : option Z) (s : CartState) :
  (exists t, toasts (addToCart p q s) = toasts s ++ [t]) /\
  (forall e, find (has_id (Product.id p)) (items s) = Some e ->
     exists e', find (has_id (Product.id p)) (items (addToCart p q s)) = Some e' /\
                toasts (addToCart p q s) =
                toasts s ++ [cart_updated_toast p (CartItem.quantity e')]).
Proof.
  split.
  - unfold addToCart. rewrite toasts_setItems. unfold addToCart_updater.
    destruct (array_find _ (items s)); eexists; reflexivity.
  - intros e He. exists (CartItem.with_quantity e (CartItem.quantity e + nullish q 1)).
    split.
    + rewrite items_addToCart, He. clear - He.
      induction (items s) as [|x l IH]; [discriminate|].
      rewrite find_has_id_cons in He. cbn [map]. rewrite find_has_id_cons.
      destruct (has_id (Product.id p) x) eqn:Hx.
      * injection He as <-. unfold has_id at 1.
        cbn [CartItem.with_quantity CartItem.productId]. fold (has_id (Product.id p) x).
        rewrite Hx. reflexivity.
      * rewrite Hx. apply IH, He.
    + unfold addToCart. rewrite toasts_setItems. unfold addToCart_updater, array_find.
      fold (has_id (Product.id p)). rewrite He. reflexivity.
Qed.

End MoreCartFacts.

(** ** The header *)

Section HeaderFacts.

Import JS Cart Header.

Local Open Scope Z_scope.



Lemma contains_app_self (token : jsstring) (l : list jsstring) :
  contains token (l ++ [token]) = true.
Proof.
  unfold contains. rewrite existsb_app. simpl. rewrite str_eqb_refl.
  rewrite orb_true_r. reflexivity.
Qed.

Lemma contains_remove (token : jsstring) (l : list jsstring) :
  contains token (classList_remove token l) = false.
Proof.
  unfold contains, classList_remove. induction l as [|t l IH]; [reflexivity|].
  cbn [filter]. destruct (str_eqb token t) eqn:E; cbn [negb]; [exact IH|].
  cbn [existsb]. rewrite E, IH. reflexivity.
Qed.

(** X10.  After the theme effect has run, the stored theme is [dark] or
    [light] and, read the way the header reads it when it starts, is the
    mode shown; the root element carries the class [dark] exactly in dark
    mode; the other classes of the root element are kept. *)
Theorem applyTheme_stored_and_shown (s : ThemeState) :
  getItem (Header.localStorage (applyTheme s)) (lit "theme") =
    Some (if isDarkMode s then lit "dark" else lit "light") /\
  initialDarkMode (Header.localStorage (applyTheme s)) = isDarkMode s /\
  isDarkMode (applyTheme s) = isDarkMode s /\
  contains (lit "dark") (classList (applyTheme s)) = isDarkMode s /\
  classList_remove (lit "dark") (classList (applyTheme s)) =
    classList_remove (lit "dark") (classList s).
Proof.
  unfold applyTheme, initialDarkMode. destruct (isDarkMode s); cbn [Header.localStorage
    Header.classList Header.isDarkMode]; rewrite getItem_setItem.
  - split; [reflexivity|]. split; [reflexivity|]. split; [reflexivity|].
    unfold classList_add.
    destruct (contains (lit "dark") (classList s)) eqn:E.
    + split; [exact E | reflexivity].
    + split; [apply contains_app_self|].
      unfold classList_remove. rewrite filter_app. cbn [filter].
      rewrite str_eqb_refl. apply app_nil_r.
  - split; [reflexivity|]. split; [reflexivity|]. split; [reflexivity|].
    split; [apply contains_remove|].
    unfold classList_remove. induction (classList s) as [|t l IH]; [reflexivity|].
    cbn [filter]. destruct (str_eqb (lit "dark") t) eqn:E; cbn [negb]; [exact IH|].
    cbn [filter]. rewrite E. cbn [negb]. rewrite IH. reflexivity.
Qed.

Lemma setItem_setItem (st : Storage) (key a b : jsstring) :
  setItem (setItem st key a) key b = setItem st key b.
Proof.
  induction st as [|[k v] st IH]; simpl.
  - rewrite str_eqb_refl. reflexivity.
  - destruct (str_eqb k key) eqn:E; simpl; rewrite E; [reflexivity|].
    rewrite IH. reflexivity.
Qed.

(** X11.  Pressing the theme button twice brings back the mode and the
    device storage of the first effect. *)
Theorem toggleTheme_twice (s : ThemeState) :
  isDarkMode (toggleTheme (toggleTheme s)) = isDarkMode s /\
  Header.localStorage (toggleTheme (toggleTheme s)) = Header.localStorage (applyTheme s) /\
  contains (lit "dark") (classList (toggleTheme (toggleTheme s))) = isDarkMode s.
Proof.
  unfold toggleTheme, applyTheme.
  destruct (isDarkMode s); cbn [isDarkMode Header.localStorage classList negb];
    rewrite setItem_setItem.
  - split; [reflexivity|]. split; [reflexivity|].
    unfold classList_add.
    rewrite contains_remove. apply contains_app_self.
  - split; [reflexivity|]. split; [reflexivity|]. apply contains_remove.
Qed.

(** X12.  The theme and the cart share the device storage without
    disturbing each other.  A cart operation changes no key but [cart], the
    theme effect no key but [theme]; so the theme effect leaves what the
    cart store starts from as it was, and no cart operation changes the
    mode the header starts in. *)
Theorem theme_and_cart_keys_apart (t : ThemeState) (c : Call) (s : CartState) :
  (forall key, key <> lit "cart" ->
     getItem (Cart.localStorage (call c s)) key = getItem (Cart.localStorage s) key) /\
  (forall key, key <> lit "theme" ->
     getItem (Header.localStorage (applyTheme t)) key = getItem (Header.localStorage t) key) /\
  initialItems (Header.localStorage (applyTheme t)) = initialItems (Header.localStorage t) /\
  initialDarkMode (Cart.localStorage (call c s)) = initialDarkMode (Cart.localStorage s).
Proof.
  assert (Hcart : forall key, key <> lit "cart" ->
            getItem (Cart.localStorage (call c s)) key = getItem (Cart.localStorage s) key).
  { intros key Hkey. destruct c as [p q | id | id q | ]; cbn [call].
    - unfold addToCart. rewrite localStorage_setItems. apply getItem_setItem_other, Hkey.
    - unfold removeFromCart. rewrite localStorage_setItems.
      apply getItem_setItem_other, Hkey.
    - unfold updateQuantity. destruct (q <? 1).
      + unfold removeFromCart. rewrite localStorage_setItems.
        apply getItem_setItem_other, Hkey.
      + rewrite localStorage_setItems. apply getItem_setItem_other, Hkey.
    - unfold clearCart, toast. cbn [Cart.localStorage].
      rewrite localStorage_setItems. apply getItem_setItem_other, Hkey. }
  assert (Htheme : forall key, key <> lit "theme" ->
            getItem (Header.localStorage (applyTheme t)) key =
            getItem (Header.localStorage t) key).
  { intros key Hkey. unfold applyTheme.
    destruct (isDarkMode t); cbn [Header.localStorage];
      apply getItem_setItem_other, Hkey. }
  split; [exact Hcart|]. split; [exact Htheme|]. split.
  - unfold initialItems. rewrite Htheme by discriminate. reflexivity.
  - unfold initialDarkMode. rewrite Hcart by discriminate. reflexivity.
Qed.

(** X13.  The Logout buttons of the header do nothing: the value of the
    session context has no member [logout] (sign-out is published as
    [signOut]), so whatever calling a member does, a click leaves every
    state as it is. *)
Theorem logout_click_does_nothing (S : Type) (call : Member -> S -> S)
  (a : Auth.AuthState) (s : S) :
  click call (logout a) s = s /\
  member (lit "signOut") (contextValue a) = Some MSignOut.
Proof. split; reflexivity. Qed.

End HeaderFacts.

(** ** The search path *)

Section SearchFacts.

Import JS URI Header.

Local Open Scope N_scope.

Lemma hex_upper_uri_char (d : N) : d < 16 -> uri_char (hex_upper d) = true.
Proof.
  intro H. unfold uri_char, hex_upper, unescaped, is_upper, is_lower, is_digit.
  destruct (N.ltb_spec d 10).
  - replace ((48 <=? 48 + d) && (48 + d <=? 57)) with true; [rewrite !orb_true_r; reflexivity|].
    symmetry. apply andb_true_intro. split; apply N.leb_le; lia.
  - replace ((65 <=? 55 + d) && (55 + d <=? 70)) with true; [apply orb_true_r|].
    symmetry. apply andb_true_intro. split; apply N.leb_le; lia.
Qed.

Lemma percent_uri_chars (b : N) : forallb uri_char (percent b) = true.
Proof.
  unfold percent. cbn [forallb].
  rewrite !hex_upper_uri_char by (apply N.mod_lt; discriminate). reflexivity.
Qed.

Lemma escape_uri_chars (cp : N) : forallb uri_char (escape cp) = true.
Proof.
  unfold escape. induction (utf8 cp) as [|b l IH]; [reflexivity|].
  cbn [flat_map]. rewrite forallb_app, percent_uri_chars, IH. reflexivity.
Qed.

Lemma unescaped_uri_char (c : N) : unescaped c = true -> uri_char c = true.
Proof. intro H. unfold uri_char. rewrite H. reflexivity. Qed.

Lemma encode_uri_chars (s : jsstring) : forall out,
  encodeURIComponent s = Normal out -> forallb uri_char out = true.
Proof.
  assert (K : forall t r out, forallb uri_char t = true ->
              (forall o, r = Normal o -> forallb uri_char o = true) ->
              cons_text t r = Normal out -> forallb uri_char out = true).
  { intros t r out Ht Hr H. destruct r as [o|e]; [|discriminate].
    injection H as <-. rewrite forallb_app, Ht, (Hr o eq_refl). reflexivity. }
  assert (G : forall n s, (List.length s <= n)%nat -> forall out,
              encodeURIComponent s = Normal out -> forallb uri_char out = true).
  { induction n as [|n IH]; intros [|c r] Hlen out; cbn [encodeURIComponent].
    - intro H. injection H as <-. reflexivity.
    - simpl in Hlen. lia.
    - intro H. injection H as <-. reflexivity.
    - simpl in Hlen. assert (Hr : (List.length r <= n)%nat) by lia.
      destruct (unescaped c) eqn:Hc.
      + apply K; [cbn [forallb]; rewrite (unescaped_uri_char c Hc); reflexivity|].
        intros o Ho. exact (IH r Hr o Ho).
      + destruct (is_trail c); [discriminate|].
        destruct (is_lead c).
        * destruct r as [|d r']; [discriminate|].
          destruct (is_trail d); [|discriminate].
          apply K; [apply escape_uri_chars|].
          intros o Ho. apply (IH r'); [simpl in Hr; lia | exact Ho].
        * apply K; [apply escape_uri_chars|].
          intros o Ho. exact (IH r Hr o Ho). }
  intros out. apply (G (List.length s)). apply Nat.le_refl.
Qed.

(** X14.  When [handleSearchSubmit] navigates, the path is [/shop?q=]
    followed by unescaped characters, [%] and upper-case hexadecimal digits
    only: whatever the query, no [&], [=], [#], [?], [/], [+] or space of it
    reaches the path. *)
Theorem handleSearchSubmit_path (query path : jsstring) :
  handleSearchSubmit query = Normal path ->
  exists q, path = lit "/shop?q=" ++ q /\
            forallb uri_char q = true /\
            (forall c, In c [38; 61; 35; 63; 47; 43; 32] -> ~ In c q).
Proof.
  unfold handleSearchSubmit. destruct (encodeURIComponent query) as [q|e] eqn:E; [|discriminate].
  intro H. injection H as <-. exists q. split; [reflexivity|].
  pose proof (encode_uri_chars query q E) as Hq. split; [exact Hq|].
  intros c Hc Hin. rewrite forallb_forall in Hq. specialize (Hq c Hin).
  cbn [In] in Hc. decompose [or] Hc; subst; try discriminate; contradiction.
Qed.

Lemma encode_well_formed (s : jsstring) :
  well_formed s = true <-> exists out, encodeURIComponent s = Normal out.
Proof.
  assert (K : forall t r, (exists out, cons_text t r = Normal out) <->
                          (exists out, r = Normal out)).
  { intros t [o|e]; cbn [cons_text]; split; intros [out H];
      try discriminate; eexists; reflexivity. }
  assert (U : forall c, unescaped c = true -> is_trail c = false /\ is_lead c = false).
  { intros c Hc. unfold is_trail, is_lead.
    destruct (N.leb_spec 56320 c), (N.leb_spec 55296 c); cbn [andb];
      try (split; reflexivity);
      exfalso; revert Hc; unfold unescaped, is_upper, is_lower, is_digit;
      repeat match goal with
             | |- context [?a <=? ?b] => destruct (N.leb_spec a b); try lia
             | |- context [?a =? ?b] => destruct (N.eqb_spec a b); try lia
             end; cbn; discriminate. }
  assert (G : forall n s, (List.length s <= n)%nat ->
              (well_formed s = true <-> exists out, encodeURIComponent s = Normal out)).
  { induction n as [|n IH]; intros [|c r] Hlen; cbn [encodeURIComponent well_formed].
    - split; [eexists; reflexivity | reflexivity].
    - simpl in Hlen. lia.
    - split; [eexists; reflexivity | reflexivity].
    - simpl in Hlen. assert (Hr : (List.length r <= n)%nat) by lia.
      destruct (unescaped c) eqn:Hc.
      + destruct (U c Hc) as [-> ->]. rewrite K. apply IH, Hr.
      + destruct (is_trail c).
        { split; [discriminate | intros [out H]; discriminate]. }
        destruct (is_lead c).
        * destruct r as [|d r'].
          { split; [discriminate | intros [out H]; discriminate]. }
          destruct (is_trail d); cbn [andb].
          -- rewrite K. apply IH. simpl in Hr. lia.
          -- split; [discriminate | intros [out H]; discriminate].
        * rewrite K. apply IH, Hr. }
  apply (G (List.length s)). apply Nat.le_refl.
Qed.

(** X15.  [handleSearchSubmit] throws a [URIError], and navigates nowhere,
    exactly for the queries that hold a surrogate that is not half of a
    pair; for every other query it navigates. *)
Theorem handleSearchSubmit_throws (query : jsstring) :
  (well_formed query = false <-> handleSearchSubmit query = Throw URIError) /\
  (well_formed query = true <-> exists path, handleSearchSubmit query = Normal path).
Proof.
  pose proof (encode_well_formed query) as H. unfold handleSearchSubmit.
  destruct (encodeURIComponent query) as [q|[]] eqn:E.
  - assert (W : well_formed query = true) by (apply H; eexists; reflexivity).
    rewrite W. split; split; try discriminate; intros; [eexists; reflexivity | reflexivity].
  - assert (W : well_formed query = false).
    { destruct (well_formed query); [|reflexivity].
      destruct (proj1 H eq_refl) as [out Hout]. discriminate. }
    rewrite W. split; split; try reflexivity; try discriminate.
    intros [path Hp]. discriminate.
Qed.

(** X16.  A query made of letters, digits and [-_.!~*'()] only goes into
    the path as it is. *)
Theorem handleSearchSubmit_plain (query : jsstring) :
  forallb unescaped query = true ->
  handleSearchSubmit query = Normal (lit "/shop?q=" ++ query).
Proof.
  intro H. unfold handleSearchSubmit.
  assert (E : encodeURIComponent query = Normal query).
  { induction query as [|c r IH]; [reflexivity|].
    cbn [forallb] in H. apply andb_true_iff in H. destruct H as [Hc Hr].
    cbn [encodeURIComponent]. rewrite Hc, (IH Hr). reflexivity. }
  rewrite E. reflexivity.
Qed.

End SearchFacts.

(** ** The session store *)

Section MoreAuthFacts.

Import JS Supabase Auth AuthMore.

(** X17.  [fetchProfile] never throws and raises no toast, and the
    identity it leaves does not depend on the one held before.  It leaves
    an identity only when the uid is a non-empty string, the session was
    read and the profile query returned a row: the identity is then made of
    that row and of the email of the session.  For a uid that is [null] or
    empty it clears the identity and logs nothing. *)
Theorem fetchProfile_overwrites_identity (B : Backend) (uid : option jsstring)
  (s : AuthState) :
  snd (fetchProfile B uid s) = Normal tt /\
  toasts (fst (fetchProfile B uid s)) = toasts s /\
  (forall s0, user (fst (fetchProfile B uid s0)) = user (fst (fetchProfile B uid s))) /\
  (forall a, user (fst (fetchProfile B uid s)) = Some a ->
     exists u sr r row,
       uid = Some u /\ u <> [] /\
       getSession B = Fulfilled sr /\ selectProfile B u = Fulfilled r /\
       select_data r = Some row /\
       a = AppUser.mk (row_id row) (nullish (full_name row) (lit "")) (session_email sr)
                      (row_avatar row)) /\
  (falsy_uid uid = true ->
     user (fst (fetchProfile B uid s)) = None /\
     console (fst (fetchProfile B uid s)) = console s).
Proof.
  unfold fetchProfile.
  destruct uid as [u|]; [|repeat split; discriminate].
  destruct u as [|c u]; [repeat split; discriminate|].
  cbn [falsy_uid truthy_string negb].
  unfold try_catch, bind, await.
  destruct (getSession B) as [sr|e]; cbn; [|repeat split; discriminate].
  destruct (selectProfile B (c :: u)) as [r|e] eqn:Esel; cbn;
    [|repeat split; discriminate].
  assert (Found : forall row, select_data r = Some row ->
            forall a, Some (AppUser.mk (row_id row) (nullish (full_name row) (lit ""))
                                       (session_email sr) (row_avatar row)) = Some a ->
            exists u0 sr0 r0 row0,
              Some (c :: u) = Some u0 /\ u0 <> [] /\
              Fulfilled sr = Fulfilled sr0 /\ selectProfile B u0 = Fulfilled r0 /\
              select_data r0 = Some row0 /\
              a = AppUser.mk (row_id row0) (nullish (full_name row0) (lit ""))
                             (session_email sr0) (row_avatar row0)).
  { intros row Hrow a Ha. injection Ha as <-.
    exists (c :: u), sr, r, row. repeat split; try assumption. discriminate. }
  destruct (select_error r) as [err|]; cbn.
  - destruct (is_other_error err); cbn; [repeat split; discriminate|].
    destruct (select_data r) as [row|] eqn:Erow; cbn;
      repeat split; try discriminate. apply (Found row eq_refl).
  - destruct (select_data r) as [row|] eqn:Erow; cbn;
      repeat split; try discriminate. apply (Found row eq_refl).
Qed.

(** X18.  [signUp] never throws: it returns a boolean, raises one toast and
    leaves the loading flag off.  When it returns [true] the toast is
    "Account created"; when it returns [false] the toast is "Signup failed"
    and the identity is the one held before. *)
Theorem signUp_returns (E : Services.t) (name email password : jsstring) (s : AuthState) :
  exists b t,
    snd (signUp E name email password s) = Normal b /\
    toasts (fst (signUp E name email password s)) = toasts s ++ [t] /\
    isLoading (fst (signUp E name email password s)) = false /\
    (b = true -> t = account_created_toast) /\
    (b = false -> user (fst (signUp E name email password s)) = user s /\
                  exists err, t = signup_failed_toast err).
Proof.
  unfold signUp, createOrUpdateProfile, try_catch_finally, try_catch, bind, await.
  cbn [setIsLoading].
  assert (Fail : forall err st,
            user st = user s -> toasts st = toasts s ->
            exists b t,
              @Normal ApiError.t bool false = Normal b /\
              toasts st ++ [signup_failed_toast err] = toasts s ++ [t] /\
              false = false /\
              (b = true -> t = account_created_toast) /\
              (b = false -> user st = user s /\ exists err0, t = signup_failed_toast err0)).
  { intros err st Hu Ht. exists false, (signup_failed_toast err). rewrite Ht.
    repeat split; try discriminate; [exact Hu | eexists; reflexivity]. }
  destruct (Services.signUp E email password name) as [r|e]; cbn -[fetchProfile];
    [|apply (Fail e (mkState (user s) true (toasts s) (console s))); reflexivity].
  destruct (Services.signup_error r) as [error|]; cbn -[fetchProfile];
    [apply (Fail error (mkState (user s) true (toasts s) (console s))); reflexivity|].
  destruct (Services.signup_user r) as [au|]; cbn -[fetchProfile].
  - destruct (user_id au) as [|c u] eqn:Eid; cbn -[fetchProfile].
    + exists true, account_created_toast. repeat split; discriminate.
    + destruct (Services.upsert E _) as [ur|e]; cbn -[fetchProfile];
        [|apply (Fail e (mkState (user s) true (toasts s) (console s))); reflexivity].
      destruct (Services.upsert_error ur) as [error|]; cbn -[fetchProfile];
        [apply (Fail error (mkState (user s) true (toasts s) (console s))); reflexivity|].
      match goal with
      | |- context [fetchProfile ?b ?i ?st] =>
          destruct (fetchProfile_returns b i st) as (s' & Hs' & _ & Ht); rewrite Hs'
      end.
      cbn -[fetchProfile]. rewrite Ht. cbn.
      exists true, account_created_toast. repeat split; discriminate.
  - exists true, account_created_toast. repeat split; discriminate.
Qed.

(** X19.  The account is created but the write of the profile row fails:
    [signUp] returns [false] and raises "Signup failed" with the message of
    the write error; the profile is not loaded, the identity stays as it
    was. *)
Theorem signUp_profile_write_fails (E : Services.t) (name email password : jsstring)
  (r : Services.SignUpResponse) (au : AuthUser) (err : ApiError.t) (s : AuthState) :
  Services.signUp E email password name = Fulfilled r ->
  Services.signup_error r = None ->
  Services.signup_user r = Some au ->
  user_id au <> [] ->
  upsert_failure E (user_id au) name = Some err ->
  snd (signUp E name email password s) = Normal false /\
  user (fst (signUp E name email password s)) = user s /\
  toasts (fst (signUp E name email password s)) = toasts s ++ [signup_failed_toast err].
Proof.
  intros Hup Herr Huser Hid Hwrite.
  unfold signUp, createOrUpdateProfile, try_catch_finally, try_catch, bind, await.
  cbn [setIsLoading]. rewrite Hup. cbn -[fetchProfile]. rewrite Herr, Huser.
  cbn -[fetchProfile].
  destruct (user_id au) as [|c u] eqn:Eid; [congruence|]. cbn -[fetchProfile].
  unfold upsert_failure in Hwrite.
  destruct (Services.upsert E _) as [ur|e]; cbn -[fetchProfile].
  - rewrite Hwrite. cbn. repeat split.
  - injection Hwrite as <-. repeat split.
Qed.

(** X20.  The account is created but no user comes back with it (the email
    is still to be confirmed): [signUp] returns [true] and raises "Account
    created", writes no profile and loads none (the identity and the console
    stay as they were), whatever the profile table would answer. *)
Theorem signUp_confirmation_pending (E : Services.t) (name email password : jsstring)
  (r : Services.SignUpResponse) (s : AuthState) :
  Services.signUp E email password name = Fulfilled r ->
  Services.signup_error r = None ->
  Services.signup_user r = None ->
  signUp E name email password s =
  (mkState (user s) false (toasts s ++ [account_created_toast]) (console s), Normal true).
Proof.
  intros Hup Herr Huser.
  unfold signUp, try_catch_finally, try_catch, bind, await.
  cbn [setIsLoading]. rewrite Hup. cbn -[fetchProfile]. rewrite Herr, Huser. reflexivity.
Qed.

(** X21.  [sendPasswordReset] never throws and never touches the identity;
    it leaves the loading flag off.  It asks for a link back to the page
    origin followed by [/reset-password]; it returns [true] with the
    "Password Reset" toast when that request succeeds, [false] with "Reset
    failed" and the message of the error when it fails. *)
Theorem sendPasswordReset_returns (E : Services.t) (email : jsstring) (s : AuthState) :
  user (fst (sendPasswordReset E email s)) = user s /\
  isLoading (fst (sendPasswordReset E email s)) = false /\
  (reset_failure E email = None ->
     snd (sendPasswordReset E email s) = Normal true /\
     toasts (fst (sendPasswordReset E email s)) = toasts s ++ [password_reset_toast] /\
     console (fst (sendPasswordReset E email s)) = console s) /\
  (forall err, reset_failure E email = Some err ->
     snd (sendPasswordReset E email s) = Normal false /\
     toasts (fst (sendPasswordReset E email s)) = toasts s ++ [reset_failed_toast err]).
Proof.
  unfold reset_failure, sendPasswordReset, try_catch_finally, try_catch, bind, await.
  cbn [setIsLoading].
  destruct (Services.resetPasswordForEmail E email _) as [r|e]; cbn.
  - destruct (Services.reset_error r) as [error|]; cbn.
    + split; [reflexivity|]. split; [reflexivity|]. split; [discriminate|].
      intros err H. injection H as <-. split; reflexivity.
    + split; [reflexivity|]. split; [reflexivity|]. split; [|discriminate].
      intros _. repeat split.
  - split; [reflexivity|]. split; [reflexivity|]. split; [discriminate|].
    intros err H. injection H as <-. split; reflexivity.
Qed.

(** X22.  [refreshProfile] has no [try] around its read of the session: a
    rejected read is thrown on to the caller, with no toast, no log and the
    state untouched.  When the session is read, [refreshProfile] returns
    and raises no toast. *)
Theorem refreshProfile_throws_on (B : Backend) (s : AuthState) :
  (forall e, getSession B = Rejected e -> refreshProfile B s = (s, Throw e)) /\
  (forall sr, getSession B = Fulfilled sr ->
     snd (refreshProfile B s) = Normal tt /\
     toasts (fst (refreshProfile B s)) = toasts s /\
     isLoading (fst (refreshProfile B s)) = isLoading s).
Proof.
  unfold refreshProfile, bind, await. split.
  - intros e He. rewrite He. reflexivity.
  - intros sr Hsr. rewrite Hsr. cbn -[fetchProfile].
    match goal with
    | |- context [fetchProfile ?b ?i ?st] =>
        destruct (fetchProfile_returns b i st) as (s' & Hs' & Hl & Ht); rewrite Hs'
    end.
    cbn. repeat split; assumption.
Qed.

(** X23.  The function started when the provider mounts has no [try]
    either: when the read of the session is rejected it throws and the
    loading flag stays as it was, so a provider that was loading goes on
    loading.  When the session is read the loading flag ends off; if the
    provider was unmounted meanwhile the identity is not touched. *)
Theorem syncSession_loading (B : Backend) (mounted : bool) (s : AuthState) :
  (forall e, getSession B = Rejected e ->
     syncSession B mounted s = (s, Throw e) /\
     (isLoading s = true -> isLoading (fst (syncSession B mounted s)) = true)) /\
  (forall sr, getSession B = Fulfilled sr ->
     snd (syncSession B mounted s) = Normal tt /\
     isLoading (fst (syncSession B mounted s)) = false /\
     toasts (fst (syncSession B mounted s)) = toasts s /\
     (mounted = false -> user (fst (syncSession B mounted s)) = user s)).
Proof.
  unfold syncSession, bind, await. split.
  - intros e He. rewrite He. split; [reflexivity | intro H; exact H].
  - intros sr Hsr. rewrite Hsr. destruct mounted; cbn -[fetchProfile].
    + match goal with
      | |- context [fetchProfile ?b ?i ?st] =>
          destruct (fetchProfile_returns b i st) as (s' & Hs' & Hl & Ht); rewrite Hs'
      end.
      cbn. repeat split; try assumption. discriminate.
    + repeat split.
Qed.

(** X24.  [signIn] and [signOut] leave the loading flag off whatever the
    backend answers, and [signOut] raises one toast whatever it answers. *)
Theorem loading_flag_is_reset (B : Backend) (email password : jsstring) (s : AuthState) :
  isLoading (fst (signIn B email password s)) = false /\
  isLoading (fst (Auth.signOut B s)) = false /\
  exists t, toasts (fst (Auth.signOut B s)) = toasts s ++ [t].
Proof.
  split; [|split].
  - unfold signIn, try_catch_finally, try_catch, bind, await. cbn [setIsLoading].
    destruct (signInWithPassword B email password) as [r|e]; cbn -[fetchProfile];
      [|reflexivity].
    destruct (signin_error r); cbn -[fetchProfile]; [reflexivity|].
    match goal with
    | |- context [fetchProfile ?b ?i ?st] =>
        destruct (fetchProfile_returns b i st) as (s' & Hs' & _); rewrite Hs'
    end.
    reflexivity.
  - unfold Auth.signOut, try_catch_finally, try_catch, bind, await. cbn [setIsLoading].
    destruct (Supabase.signOut B) as [r|e]; cbn; [|reflexivity].
    destruct (signout_error r); reflexivity.
  - unfold Auth.signOut, try_catch_finally, try_catch, bind, await. cbn [setIsLoading].
    destruct (Supabase.signOut B) as [r|e]; cbn; [|eexists; reflexivity].
    destruct (signout_error r); eexists; reflexivity.
Qed.

(** X25.  [signIn] returns [true] exactly when the credential check
    passes, whatever happens to the profile afterwards; it then raises
    "Signed in". *)
Theorem signIn_true_iff_credentials_ok (B : Backend) (email password : jsstring)
  (s : AuthState) :
  (snd (signIn B email password s) = Normal true <->
   credential_error B email password = None) /\
  (credential_error B email password = None ->
   toasts (fst (signIn B email password s)) = toasts s ++ [signed_in_toast]).
Proof.
  unfold credential_error, signIn, try_catch_finally, try_catch, bind, await.
  cbn [setIsLoading].
  destruct (signInWithPassword B email password) as [r|e]; cbn -[fetchProfile].
  - destruct (signin_error r); cbn -[fetchProfile].
    + split; [split; discriminate | discriminate].
    + match goal with
      | |- context [fetchProfile ?b ?i ?st] =>
          destruct (fetchProfile_returns b i st) as (s' & Hs' & _ & Ht); rewrite Hs'
      end.
      cbn. rewrite Ht. split; [split; reflexivity | reflexivity].
  - split; [split; discriminate | discriminate].
Qed.

End MoreAuthFacts.

(** ** Concrete runs *)

Section CartExamples.

Import JS Cart.

Local Open Scope Z_scope.



(** The text saved for that cart. *)
Example saved_text_P1 :
  getItem (localStorage (addToCart P1 None emptyCart)) (lit "cart") =
  Some (lit "[{" ++ quoted "productId" ++ lit ":" ++ quoted "P1" ++ lit "," ++
        quoted "title" ++ lit ":" ++ quoted "Mug" ++ lit "," ++
        quoted "price" ++ lit ":10," ++
        quoted "imageUrl" ++ lit ":" ++ quoted "/img/mug.png" ++ lit "," ++
        quoted "quantity" ++ lit ":1}]").
Proof. reflexivity. Qed.

Lemma updateQuantity_below_one_is_remove_P1 :
  updateQuantity (lit "P1") 0 (addToCart P1 None emptyCart) =
  removeFromCart (lit "P1") (addToCart P1 None emptyCart).
Proof.
  apply (updateQuantity_below_one_is_remove (addToCart P1 None emptyCart) (lit "P1") 0).
  lia.
Defined.

(** The scenario of the specification: 10, then 30, then nothing. *)
Example scenario_totals :
  totalPrice (addToCart P1 (Some 1) emptyCart) = 10 /\
  totalPrice (run [AddToCart P1 (Some 1); AddToCart P1 (Some 2)] emptyCart) = 30 /\
  items (run [AddToCart P1 (Some 1); AddToCart P1 (Some 2); RemoveFromCart (lit "P1")]
             emptyCart) = [] /\
  totalPrice (run [AddToCart P1 (Some 1); AddToCart P1 (Some 2); RemoveFromCart (lit "P1")]
                  emptyCart) = 0.
Proof. repeat split; reflexivity. Qed.



(** C8 fails as stated: a saved cart that is the empty string is present
    and is no JSON text, yet the store starts with the empty cart. *)
Lemma empty_saved_text_is_not_rejected :
  getItem storage_empty_text (lit "cart") = Some [] /\
  parse [] = Throw SyntaxError /\
  initialItems storage_empty_text = Normal (JArr []) /\
  initialItems storage_empty_text <> Throw SyntaxError.
Proof. repeat split; try reflexivity. discriminate. Qed.

Lemma initialItems_saved_text_cut_short :
  initialItems storage_cut_short = Throw SyntaxError.
Proof.
  apply (proj1 (initialItems_saved_text storage_cut_short (lit "[{") eq_refl)).
  - discriminate.
  - reflexivity.
Defined.

(** A cart of two entries: removing an id it does not hold, and one it
    holds. *)
Lemma removeFromCart_frame_P1 :
  let s := addToCart P1 None (addToCart P2 (Some 2) emptyCart) in
  (items (removeFromCart (lit "P3") s) = items s /\
   toasts (removeFromCart (lit "P3") s) = toasts s) /\
  (items (removeFromCart (lit "P1") s) = [entry P2 2] /\
   toasts (removeFromCart (lit "P1") s) = toasts s ++ [removed_toast (entry P1 1)]).
Proof.
  intro s. split.
  - apply (proj1 (removeFromCart_frame s (lit "P3"))).
    intros e [<-|[<-|[]]]; discriminate.
  - destruct (proj2 (removeFromCart_frame s (lit "P1")) (entry P1 1) eq_refl)
      as (_ & _ & _ & Hitems & Htoasts).
    split; [exact Hitems | exact Htoasts].
Defined.

End CartExamples.

Section AuthExamples.

Import JS Supabase Auth.

(** Wrong password: [false], nobody signed in, one failure toast. *)
Lemma signIn_failure_is_caught_refusing :
  let r := signIn refusing (lit "ada@example.org") (lit "guess") signed_out in
  snd r = Normal false /\
  user (fst r) = None /\
  isLoading (fst r) = false /\
  Auth.toasts (fst r) = [sign_in_failed_toast bad_password].
Proof.
  apply (proj1 (signIn_failure_is_caught refusing (lit "ada@example.org") (lit "guess")
                  signed_out) bad_password).
  reflexivity.
Defined.

(** Right password, no profile row yet: [true], nobody signed in. *)
Lemma signIn_without_profile_row_ada :
  let r := signIn without_profile (lit "ada@example.org") (lit "secret") signed_out in
  snd r = Normal true /\
  user (fst r) = None /\
  isLoading (fst r) = false /\
  Auth.toasts (fst r) = [signed_in_toast] /\
  (forall sr, getSession without_profile = Fulfilled sr -> console (fst r) = []).
Proof.
  apply (signIn_without_profile_row without_profile (lit "ada@example.org") (lit "secret")
           (mkSignInResponse (Some ada) None) ada
           (mkSelectResponse None (Some no_rows)) signed_out).
  - reflexivity.
  - reflexivity.
  - reflexivity.
  - reflexivity.
  - split; [reflexivity|]. exists no_rows. split; reflexivity.
Defined.

(** The sign-out call is rejected: the user stays signed in. *)
Lemma signOut_failure_keeps_identity_refusing :
  user (fst (Auth.signOut refusing signed_in)) = user signed_in /\
  isLoading (fst (Auth.signOut refusing signed_in)) = false /\
  Auth.toasts (fst (Auth.signOut refusing signed_in)) = [logout_failed_toast].
Proof.
  apply (proj1 (signOut_failure_keeps_identity refusing signed_in)
               (ApiError.mk (Some (lit "Failed to fetch")) None)).
  reflexivity.
Defined.

Example signOut_success_clears :
  Auth.signOut without_profile signed_in =
  (Auth.mkState None false [logged_out_toast] [], Normal tt).
Proof. reflexivity. Qed.

End AuthExamples.

(** ** Further concrete runs *)

Section MoreExamples.

Import JS Cart Header URI.

Local Open Scope Z_scope.


Lemma updateQuantity_sets_in_place_P2 :
  toasts (updateQuantity (lit "P2") 9 two_entries) = toasts two_entries /\
  ids (items (updateQuantity (lit "P2") 9 two_entries)) = [lit "P2"; lit "P1"].
Proof.
  destruct (updateQuantity_sets_in_place (lit "P2") 9 two_entries) as (Ht & Hids & _).
  - lia.
  - split; [exact Ht | exact Hids].
Defined.

Lemma addToCart_then_removeFromCart_P1 :
  items (removeFromCart (lit "P1") (addToCart P1 (Some 3) (addToCart P2 None emptyCart))) =
  [entry P2 1].
Proof.
  apply (addToCart_then_removeFromCart P1 (Some 3) (addToCart P2 None emptyCart)).
  reflexivity.
Defined.



Lemma addToCart_toast_tells_quantity_P1 :
  exists e', find (has_id (lit "P1")) (items (addToCart P1 (Some 3) two_entries)) = Some e' /\
             toasts (addToCart P1 (Some 3) two_entries) =
             toasts two_entries ++ [cart_updated_toast P1 (CartItem.quantity e')].
Proof.
  apply (proj2 (addToCart_toast_tells_quantity P1 (Some 3) two_entries) (entry P1 2)).
  reflexivity.
Defined.


Lemma theme_and_cart_keys_apart_dark :
  initialItems (Header.localStorage
                  (applyTheme (mkTheme true [] (Cart.localStorage two_entries)))) =
  initialItems (Cart.localStorage two_entries).
Proof.
  exact (proj1 (proj2 (proj2
    (theme_and_cart_keys_apart (mkTheme true [] (Cart.localStorage two_entries))
                               ClearCart emptyCart)))).
Defined.

Lemma handleSearchSubmit_path_tea :
  exists q, lit "/shop?q=tea%20%26%20mug" = lit "/shop?q=" ++ q /\
            forallb uri_char q = true /\
            (forall c, In c [38; 61; 35; 63; 47; 43; 32]%N -> ~ In c q).
Proof.
  apply (handleSearchSubmit_path (lit "tea & mug") (lit "/shop?q=tea%20%26%20mug")).
  reflexivity.
Defined.

Example handleSearchSubmit_lone_surrogate :
  handleSearchSubmit (lit "tea" ++ [55357%N]) = Throw URIError.
Proof. reflexivity. Qed.

Example handleSearchSubmit_utf8 :
  handleSearchSubmit [233; 8364; 55357; 56832]%N =
  Normal (lit "/shop?q=%C3%A9%E2%82%AC%F0%9F%98%80").
Proof. reflexivity. Qed.

Lemma handleSearchSubmit_plain_mug :
  handleSearchSubmit (lit "Mug_2") = Normal (lit "/shop?q=Mug_2").
Proof. apply (handleSearchSubmit_plain (lit "Mug_2")). reflexivity. Defined.

End MoreExamples.

Section MoreAuthExamples.

Import JS Supabase Auth AuthMore.

Lemma fetchProfile_overwrites_identity_ada :
  user (fst (fetchProfile with_profile (Some (lit "u-1")) signed_out)) =
  Some (AppUser.mk (lit "u-1") (lit "Ada") (lit "ada@example.org") None) /\
  user (fst (fetchProfile with_profile None signed_in)) = None.
Proof.
  split.
  - reflexivity.
  - apply (proj2 (proj2 (proj2 (proj2
      (fetchProfile_overwrites_identity with_profile None signed_in))))).
    reflexivity.
Defined.

Lemma signUp_returns_ada :
  exists b t,
    snd (signUp (signing_up (Rejected table_locked)) (lit "Ada") (lit "ada@example.org")
           (lit "secret") signed_out) = Normal b /\
    Auth.toasts (fst (signUp (signing_up (Rejected table_locked)) (lit "Ada")
                        (lit "ada@example.org") (lit "secret") signed_out)) = [] ++ [t] /\
    isLoading (fst (signUp (signing_up (Rejected table_locked)) (lit "Ada")
                      (lit "ada@example.org") (lit "secret") signed_out)) = false /\
    (b = true -> t = account_created_toast) /\
    (b = false ->
       user (fst (signUp (signing_up (Rejected table_locked)) (lit "Ada")
                    (lit "ada@example.org") (lit "secret") signed_out)) = None /\
       exists err, t = signup_failed_toast err).
Proof.
  exact (signUp_returns (signing_up (Rejected table_locked)) (lit "Ada")
           (lit "ada@example.org") (lit "secret") signed_out).
Defined.

Lemma signUp_profile_write_fails_ada :
  let r := signUp (signing_up (Rejected table_locked)) (lit "Ada") (lit "ada@example.org")
             (lit "secret") signed_out in
  snd r = Normal false /\ user (fst r) = None /\
  Auth.toasts (fst r) = [signup_failed_toast table_locked].
Proof.
  apply (signUp_profile_write_fails (signing_up (Rejected table_locked)) (lit "Ada")
           (lit "ada@example.org") (lit "secret")
           (Services.mkSignUpResponse (Some ada) None) ada table_locked signed_out).
  - reflexivity.
  - reflexivity.
  - reflexivity.
  - discriminate.
  - reflexivity.
Defined.

Lemma signUp_confirmation_pending_ada :
  signUp confirming (lit "Ada") (lit "ada@example.org") (lit "secret") signed_out =
  (Auth.mkState None false [account_created_toast] [], Normal true).
Proof.
  apply (signUp_confirmation_pending confirming (lit "Ada") (lit "ada@example.org")
           (lit "secret") (Services.mkSignUpResponse None None) signed_out);
    reflexivity.
Defined.

Lemma sendPasswordReset_returns_refused :
  snd (sendPasswordReset confirming (lit "ada@example.org") signed_in) = Normal false /\
  Auth.toasts (fst (sendPasswordReset confirming (lit "ada@example.org") signed_in)) =
  [reset_failed_toast (ApiError.mk None None)].
Proof.
  apply (proj2 (proj2 (proj2
    (sendPasswordReset_returns confirming (lit "ada@example.org") signed_in)))
    (ApiError.mk None None)).
  reflexivity.
Defined.

Lemma refreshProfile_throws_on_unreachable :
  refreshProfile unreachable signed_in =
  (signed_in, Throw (ApiError.mk (Some (lit "Failed to fetch")) None)).
Proof.
  apply (proj1 (refreshProfile_throws_on unreachable signed_in)). reflexivity.
Defined.

(** A provider that mounts while the backend is out of reach goes on
    loading. *)
Lemma syncSession_loading_unreachable :
  isLoading (fst (syncSession unreachable true initialState)) = true.
Proof.
  apply (proj1 (syncSession_loading unreachable true initialState)
           (ApiError.mk (Some (lit "Failed to fetch")) None)).
  - reflexivity.
  - reflexivity.
Defined.

Lemma signIn_true_iff_credentials_ok_unreachable_profile :
  snd (signIn without_profile (lit "ada@example.org") (lit "secret") signed_out) = Normal true.
Proof.
  apply (proj2 (proj1 (signIn_true_iff_credentials_ok without_profile (lit "ada@example.org")
                         (lit "secret") signed_out))).
  reflexivity.
Defined.

End MoreAuthExamples.
